(** * Web-Monitor: a shallow embedding of the probes, the scheduler step,
    the retention job, the space deletion command and the password
    encryption of the [webmonitor] package.

    Network, database drivers and the clock are the environment: every
    probe takes the outcome of its I/O calls as an explicit argument, and
    the code around those calls is translated as it is written. *)

From Stdlib Require Import ZArith QArith String Ascii List Bool Lia.
Import ListNotations.

Local Open Scope string_scope.
Local Open Scope Z_scope.
#[local] Set Warnings "-register-all".

(** ** Python values, as stored in the [details] mapping of a result *)

Inductive pyval : Type :=
| PNone
| PBool (b : bool)
| PInt (z : Z)
| PStr (s : string)
| PDict (d : list (string * pyval)).

(** A Python [dict] keeps insertion order; assigning to an existing key
    replaces the value in place. *)
Fixpoint dict_set {V : Type} (k : string) (v : V) (d : list (string * V))
  : list (string * V) :=
  match d with
  | [] => [(k, v)]
  | (k', v') :: d' =>
      if String.eqb k k' then (k, v) :: d' else (k', v') :: dict_set k v d'
  end.

Fixpoint dict_get {V : Type} (k : string) (d : list (string * V)) : option V :=
  match d with
  | [] => None
  | (k', v') :: d' => if String.eqb k k' then Some v' else dict_get k d'
  end.

Definition has_key {V : Type} (k : string) (d : list (string * V)) : bool :=
  match dict_get k d with Some _ => true | None => false end.

(** [str(n)] for a Python [int]. *)
Fixpoint digits_of_nat (fuel n : nat) (acc : string) : string :=
  match fuel with
  | O => acc
  | S fuel' =>
      let acc' := String (ascii_of_nat (48 + n mod 10)) acc in
      if Nat.ltb n 10 then acc' else digits_of_nat fuel' (n / 10) acc'
  end.

Definition str_of_Z (z : Z) : string :=
  if Z.ltb z 0
  then String "-" (digits_of_nat (S (Z.to_nat (- z))) (Z.to_nat (- z)) EmptyString)
  else digits_of_nat (S (Z.to_nat z)) (Z.to_nat z) EmptyString.

(** [needle in hay] for Python strings. *)
Fixpoint prefixb (p s : string) : bool :=
  match p, s with
  | EmptyString, _ => true
  | String a p', String b s' => Ascii.eqb a b && prefixb p' s'
  | String _ _, EmptyString => false
  end.

Fixpoint py_in (needle hay : string) : bool :=
  prefixb needle hay ||
  match hay with
  | EmptyString => false
  | String _ hay' => py_in needle hay'
  end.

(** Truth value of an [Optional[str]]: [None] and [""] are false. *)
Definition truthy (o : option string) : bool :=
  match o with
  | Some s => negb (String.eqb s EmptyString)
  | None => false
  end.

(** ** webmonitor/models/monitor.py *)

Inductive MonitorType := URL | DATABASE.

Inductive MonitorStatus := HEALTHY | UNHEALTHY | UNKNOWN | OFFLINE.

Definition MonitorStatus_eqb (a b : MonitorStatus) : bool :=
  match a, b with
  | HEALTHY, HEALTHY | UNHEALTHY, UNHEALTHY
  | UNKNOWN, UNKNOWN | OFFLINE, OFFLINE => true
  | _, _ => false
  end.

(** Timestamps ([datetime]) are integer clock ticks. *)
Record BaseMonitor := mkBaseMonitor {
  mon_id : string;
  name : string;
  space_id : string;
  monitor_type : MonitorType;
  status : MonitorStatus;
  check_interval_seconds : Z;
  created_at : Z;
  updated_at : option Z;
  last_checked_at : option Z;
  last_healthy_at : option Z
}.

Record UrlMonitor := mkUrlMonitor {
  u_base : BaseMonitor;
  url : string;
  expected_status_code : Z;
  timeout_seconds : Z;
  check_ssl : bool;
  follow_redirects : bool;
  check_content : option string
}.

Record MonitorResult := mkMonitorResult {
  r_monitor_id : string;
  r_space_id : string;
  r_timestamp : Z;
  r_status : MonitorStatus;
  r_monitor_type : MonitorType;
  r_response_time_ms : Z;
  r_details : list (string * pyval);
  r_failed_checks : Z;
  r_check_list : list string
}.

(** ** webmonitor/utils/errors.py *)

Definition BASE_ERROR := "An unexpected error occurred during monitoring"%string.
Definition CONNECTION_ERROR := "Failed to establish connection"%string.
Definition TIMEOUT_ERROR (timeout : Z) :=
  ("Request timed out after " ++ str_of_Z timeout ++ " seconds")%string.
Definition STATUS_CODE_ERROR (expected actual : Z) :=
  ("Expected status code " ++ str_of_Z expected ++ ", got " ++ str_of_Z actual)%string.
Definition CONTENT_ERROR := "Required content not found in response"%string.
Definition SSL_ERROR := "SSL/TLS verification failed"%string.
Definition QUERY_CONNECTION_ERROR :=
  "Failed to execute query due to connection error"%string.
Definition QUERY_EXECUTION_ERROR := "Failed to execute query"%string.

(** ** webmonitor/services/url_checker.py *)

(** What [requests.get] does: raise one of the caught exception classes or
    return a response. *)
Inductive GetOutcome :=
| GetTimeout
| GetConnectionError
| GetOtherError
| GetResponse (status_code : Z) (text : string).

(** What [get_ssl_expiry] returns: the certificate data ([has_ssl] true)
    or the text of the exception it caught ([has_ssl] false). *)
Inductive SslOutcome :=
| SslCert (expiry_date : string) (days_until_expiry : Z)
          (issuer : list (string * string))
| SslFailure (error : string).

Record UrlEnv := mkUrlEnv {
  get_result : GetOutcome;
  ssl_result : SslOutcome;
  start_time : Z;
  end_time : Z;
  now_ts : Z
}.

(** The local variables [status], [failed_checks] and [details] that
    [check_url] and [check_db] mutate. *)
Record Acc := mkAcc {
  a_status : MonitorStatus;
  a_failed : Z;
  a_details : list (string * pyval)
}.

Definition acc0 : Acc := mkAcc HEALTHY 0 [].

(** [status = UNHEALTHY; failed_checks += n; details[k] = v] *)
Definition fail_check (n : Z) (k : string) (v : pyval) (a : Acc) : Acc :=
  mkAcc UNHEALTHY (a_failed a + n) (dict_set k v (a_details a)).

(** [details[k] = v] *)
Definition record_check (k : string) (v : pyval) (a : Acc) : Acc :=
  mkAcc (a_status a) (a_failed a) (dict_set k v (a_details a)).

Definition opt_str (o : option string) : pyval :=
  match o with Some s => PStr s | None => PNone end.

Definition url_check_list (monitor : UrlMonitor) : list string :=
  (["connection"; "status_code"]
   ++ (if truthy (check_content monitor) then ["content"] else [])
   ++ (if check_ssl monitor then ["ssl"] else []))%list.

(** [monitor.check_content and monitor.check_content not in response.text] *)
Definition content_missing (monitor : UrlMonitor) (text : string) : bool :=
  match check_content monitor with
  | Some c => truthy (Some c) && negb (py_in c text)
  | None => false
  end.

(** The body of the [try] once [requests.get] has returned. *)
Definition url_checks_after_get (monitor : UrlMonitor) (ssl_details : SslOutcome)
    (code : Z) (text : string) : Acc :=
  let a := record_check "connection" (PDict [("connected", PBool true)]) acc0 in
  let exp := expected_status_code monitor in
  let a :=
    if negb (code =? exp)
    then fail_check 1 "status_code"
           (PDict [("expected", PInt exp); ("actual", PInt code);
                   ("message", PStr (STATUS_CODE_ERROR exp code))]) a
    else record_check "status_code"
           (PDict [("expected", PInt exp); ("actual", PInt code)]) a in
  let a :=
    if content_missing monitor text
    then fail_check 1 "content"
           (PDict [("expected", opt_str (check_content monitor));
                   ("found", PBool false); ("message", PStr CONTENT_ERROR)]) a
    else record_check "content"
           (PDict [("expected", opt_str (check_content monitor));
                   ("found", PBool true)]) a in
  if check_ssl monitor then
    match ssl_details with
    | SslFailure err =>
        fail_check 1 "ssl"
          (PDict [("message", PStr SSL_ERROR); ("error", PStr err)]) a
    | SslCert exp_date days issuer =>
        record_check "ssl"
          (PDict [("expiry_date", PStr exp_date);
                  ("days_until_expiry", PInt days);
                  ("issuer", PDict (map (fun '(k, v) => (k, PStr v)) issuer))]) a
    end
  else a.

Definition check_url (monitor : UrlMonitor) (env : UrlEnv) : MonitorResult :=
  let check_list := url_check_list monitor in
  let a :=
    match get_result env with
    | GetTimeout =>
        fail_check 1 "connection"
          (PDict [("connected", PBool false);
                  ("message", PStr (TIMEOUT_ERROR (timeout_seconds monitor)))]) acc0
    | GetConnectionError =>
        fail_check 1 "connection"
          (PDict [("connected", PBool false);
                  ("message", PStr CONNECTION_ERROR)]) acc0
    | GetOtherError =>
        fail_check 1 "connection"
          (PDict [("connected", PBool false); ("message", PStr BASE_ERROR)]) acc0
    | GetResponse code text =>
        url_checks_after_get monitor (ssl_result env) code text
    end in
  mkMonitorResult
    (mon_id (u_base monitor)) (space_id (u_base monitor)) (now_ts env)
    (a_status a) (monitor_type (u_base monitor))
    ((end_time env - start_time env) * 1000)
    (a_details a) (a_failed a) check_list.

(** ** DatabaseMonitor and webmonitor/services/db_checker.py *)

Record DatabaseMonitor := mkDatabaseMonitor {
  d_base : BaseMonitor;
  db_type : string;
  host : string;
  port : Z;
  database : string;
  username : string;
  encrypted_password : string;
  connection_timeout_seconds : Z;
  query_timeout_seconds : Z;
  test_query : string
}.

(** [str.lower] on ASCII text. *)
Definition lower_char (c : ascii) : ascii :=
  let n := nat_of_ascii c in
  if (Nat.leb 65 n && Nat.leb n 90)%bool then ascii_of_nat (n + 32) else c.

Fixpoint lower (s : string) : string :=
  match s with
  | EmptyString => EmptyString
  | String c s' => String (lower_char c) (lower s')
  end.

(** [str.isspace] on ASCII characters: tab, newline, vertical tab, form
    feed, carriage return, the four separators 0x1c-0x1f and space. *)
Definition is_py_space (c : ascii) : bool :=
  let n := nat_of_ascii c in
  ((Nat.leb 9 n && Nat.leb n 13) || (Nat.leb 28 n && Nat.leb n 32))%bool.

Fixpoint lstrip (s : string) : string :=
  match s with
  | EmptyString => EmptyString
  | String c s' => if is_py_space c then lstrip s' else s
  end.

Fixpoint rev_string (s : string) (acc : string) : string :=
  match s with
  | EmptyString => acc
  | String c s' => rev_string s' (String c acc)
  end.

(** [str.strip()] *)
Definition py_strip (s : string) : string :=
  rev_string (lstrip (rev_string (lstrip s) EmptyString)) EmptyString.

(** [urllib.parse.quote_plus] on ASCII text. *)
Definition hex_digit (n : nat) : ascii :=
  if Nat.ltb n 10 then ascii_of_nat (48 + n) else ascii_of_nat (55 + n).

Definition quote_char (c : ascii) : string :=
  let n := nat_of_ascii c in
  if ((Nat.leb 48 n && Nat.leb n 57) || (Nat.leb 65 n && Nat.leb n 90)
      || (Nat.leb 97 n && Nat.leb n 122)
      || Ascii.eqb c "_" || Ascii.eqb c "." || Ascii.eqb c "-"
      || Ascii.eqb c "~")%bool
  then String c EmptyString
  else if Ascii.eqb c " " then "+"
  else String "%" (String (hex_digit (n / 16)) (String (hex_digit (n mod 16)) EmptyString)).

Fixpoint quote_plus (s : string) : string :=
  match s with
  | EmptyString => EmptyString
  | String c s' => quote_char c ++ quote_plus s'
  end.

(** [DatabaseMonitor.test_connection_string]; [password] is the value of
    the [password] property (the decrypted password, or [""]).  A
    [ValueError] is [inl] with its message. *)
Definition test_connection_string (password : string) (m : DatabaseMonitor)
  : string + string :=
  let encoded_password := quote_plus password in
  let tail := username m ++ ":" ++ encoded_password ++ "@" ++ host m ++ ":"
              ++ str_of_Z (port m) ++ "/" ++ database m in
  if String.eqb (lower (db_type m)) "postgresql" then inr ("postgresql://" ++ tail)
  else if String.eqb (lower (db_type m)) "mysql" then inr ("mysql+pymysql://" ++ tail)
  else if String.eqb (lower (db_type m)) "sqlserver" then
    inr ("mssql+pyodbc://" ++ tail
         ++ "?driver=ODBC+Driver+17+for+SQL+Server&TrustServerCertificate=yes")
  else inl ("Unsupported database type: " ++ db_type m).

(** The driver side of a database probe.  [connect_ok] is false when
    [create_engine] or [engine.connect()] raises; [set_timeout_ok] and
    [query_ok] are false when the corresponding [connection.execute]
    raises (SQLAlchemy raises [SQLAlchemyError] for driver errors). *)
Record DbEnv := mkDbEnv {
  db_password : string;
  connect_ok : bool;
  set_timeout_ok : bool;
  query_ok : bool;
  rowcount : Z;
  db_start_time : Z;
  db_end_time : Z;
  db_now_ts : Z
}.

(** The dialect-specific timeout statement run before the test query. *)
Definition timeout_statement (m : DatabaseMonitor) : option string :=
  let ms := str_of_Z (query_timeout_seconds m * 1000) in
  if String.eqb (lower (db_type m)) "postgresql" then Some ("SET statement_timeout = " ++ ms)
  else if String.eqb (lower (db_type m)) "mysql" then Some ("SET max_execution_time = " ++ ms)
  else if String.eqb (lower (db_type m)) "sqlserver" then Some ("SET LOCK_TIMEOUT " ++ ms)
  else None.

(** The outer [except Exception] handler of [check_db]. *)
Definition db_connection_failed (a : Acc) : Acc :=
  record_check "query"
    (PDict [("executed", PBool false); ("message", PStr QUERY_CONNECTION_ERROR)])
    (fail_check 2 "connection"
       (PDict [("connected", PBool false); ("message", PStr CONNECTION_ERROR)]) a).

(** The body of the [with engine.connect()] block. *)
Definition db_checks_after_connect (monitor : DatabaseMonitor) (env : DbEnv) : Acc :=
  let a := record_check "connection" (PDict [("connected", PBool true)]) acc0 in
  if (truthy (Some (test_query monitor))
      && truthy (Some (py_strip (test_query monitor))))%bool then
    let set_ok :=
      match timeout_statement monitor with
      | Some _ => set_timeout_ok env
      | None => true
      end in
    if (set_ok && query_ok env)%bool then
      record_check "query"
        (PDict [("executed", PBool true);
                ("message", PStr ("Query '" ++ test_query monitor
                                  ++ "' executed successfully. Rows affected: "
                                  ++ str_of_Z (rowcount env)))]) a
    else
      fail_check 1 "query"
        (PDict [("executed", PBool false); ("message", PStr QUERY_EXECUTION_ERROR)]) a
  else a.

Definition check_db (monitor : DatabaseMonitor) (env : DbEnv) : MonitorResult :=
  let check_list := ["connection"; "query"]%list in
  let a :=
    match test_connection_string (db_password env) monitor with
    | inl _ => db_connection_failed acc0
    | inr _ =>
        if connect_ok env then db_checks_after_connect monitor env
        else db_connection_failed acc0
    end in
  mkMonitorResult
    (mon_id (d_base monitor)) (space_id (d_base monitor)) (db_now_ts env)
    (a_status a) (monitor_type (d_base monitor))
    ((db_end_time env - db_start_time env) * 1000)
    (a_details a) (a_failed a) check_list.

(** ** webmonitor/services/email_service.py *)

Definition should_send_notification (result : MonitorResult)
    (previous_result : option MonitorResult) : bool :=
  match previous_result with
  | None => MonitorStatus_eqb (r_status result) UNHEALTHY
  | Some prev => negb (MonitorStatus_eqb (r_status prev) (r_status result))
  end.

(** ** The clock: [datetime.now()] as a state effect *)

(** Each call of [datetime.now()] consumes the next non-negative advance
    of the clock from [clock_ticks] (none left: the clock stands still). *)
Record Clock := mkClock { clock_now : Z; clock_ticks : list N }.

Definition ST (A : Type) : Type := Clock -> A * Clock.

Definition ret {A : Type} (x : A) : ST A := fun c => (x, c).

Definition bind {A B : Type} (m : ST A) (k : A -> ST B) : ST B :=
  fun c => let '(x, c') := m c in k x c'.

Notation "x <- m ;; k" := (bind m (fun x => k))
  (at level 61, m at next level, right associativity).

Definition now : ST Z :=
  fun c =>
    match clock_ticks c with
    | [] => (clock_now c, c)
    | d :: ds => let t := clock_now c + Z.of_N d in (t, mkClock t ds)
    end.

(** ** BaseMonitor timestamp methods *)

Definition set_status (s : MonitorStatus) (m : BaseMonitor) : BaseMonitor :=
  mkBaseMonitor (mon_id m) (name m) (space_id m) (monitor_type m) s
    (check_interval_seconds m) (created_at m) (updated_at m)
    (last_checked_at m) (last_healthy_at m).

Definition set_updated_at (t : Z) (m : BaseMonitor) : BaseMonitor :=
  mkBaseMonitor (mon_id m) (name m) (space_id m) (monitor_type m) (status m)
    (check_interval_seconds m) (created_at m) (Some t)
    (last_checked_at m) (last_healthy_at m).

Definition set_last_checked_at (t : Z) (m : BaseMonitor) : BaseMonitor :=
  mkBaseMonitor (mon_id m) (name m) (space_id m) (monitor_type m) (status m)
    (check_interval_seconds m) (created_at m) (updated_at m)
    (Some t) (last_healthy_at m).

Definition set_last_healthy_at (t : Z) (m : BaseMonitor) : BaseMonitor :=
  mkBaseMonitor (mon_id m) (name m) (space_id m) (monitor_type m) (status m)
    (check_interval_seconds m) (created_at m) (updated_at m)
    (last_checked_at m) (Some t).

Definition update_timestamp (m : BaseMonitor) : ST BaseMonitor :=
  t <- now ;; ret (set_updated_at t m).

Definition update_last_checked_at (m : BaseMonitor) : ST BaseMonitor :=
  t <- now ;; update_timestamp (set_last_checked_at t m).

Definition update_last_healthy_at (m : BaseMonitor) : ST BaseMonitor :=
  t <- now ;; update_timestamp (set_last_healthy_at t m).

(** ** webmonitor/services/scheduler.py: [MonitorScheduler._run_monitor] *)

Inductive Monitor :=
| MUrl (m : UrlMonitor)
| MDb (m : DatabaseMonitor).

Definition base_of (m : Monitor) : BaseMonitor :=
  match m with MUrl u => u_base u | MDb d => d_base d end.

Definition with_base (b : BaseMonitor) (m : Monitor) : Monitor :=
  match m with
  | MUrl u => MUrl (mkUrlMonitor b (url u) (expected_status_code u)
                      (timeout_seconds u) (check_ssl u) (follow_redirects u)
                      (check_content u))
  | MDb d => MDb (mkDatabaseMonitor b (db_type d) (host d) (port d) (database d)
                    (username d) (encrypted_password d)
                    (connection_timeout_seconds d) (query_timeout_seconds d)
                    (test_query d))
  end.

(** The I/O a probe run observes, for either kind of monitor. *)
Record ProbeEnv := mkProbeEnv { url_env : UrlEnv; db_env : DbEnv }.

Definition run_check (m : Monitor) (pe : ProbeEnv) : MonitorResult :=
  match m with
  | MUrl u => check_url u (url_env pe)
  | MDb d => check_db d (db_env pe)
  end.

(** The part of [_run_monitor] that updates the monitor object; what
    follows it (saving the result and the monitor, the notification) does
    not change the monitor's fields. *)
Definition _run_monitor (monitor : Monitor) (pe : ProbeEnv)
  : ST (Monitor * MonitorResult) :=
  let result := run_check monitor pe in
  let b := set_status (r_status result) (base_of monitor) in
  b <- update_last_checked_at b ;;
  b <- (if MonitorStatus_eqb (r_status result) HEALTHY
        then update_last_healthy_at b else ret b) ;;
  ret (with_base b monitor, result).

(** The monitor's stored timestamps are clock readings already taken. *)
Definition timestamps_not_ahead (m : BaseMonitor) (c : Clock) : Prop :=
  created_at m <= clock_now c
  /\ (forall t, last_checked_at m = Some t -> t <= clock_now c)
  /\ (forall t, last_healthy_at m = Some t -> t <= clock_now c).

(** ** The store: the rows of the [spaces], [monitors] and
    [monitor_results] tables that the claims below read *)

Record SpaceRow := mkSpaceRow { sp_id : string }.

Record MonitorRow := mkMonitorRow {
  mr_id : string;
  mr_space_id : string;
  mr_status : MonitorStatus
}.

Record ResultRow := mkResultRow {
  res_id : string;
  res_monitor_id : string;
  res_space_id : string;
  res_status : MonitorStatus;
  res_timestamp : Z
}.

Record Store := mkStore {
  spaces : list SpaceRow;
  monitors : list MonitorRow;
  results : list ResultRow
}.

(** [timedelta(days=1)] in clock ticks (seconds). *)
Definition DAY : Z := 86400.

(** ** webmonitor/infrastructure/database/result_repository.py: retention *)

(** The filter [timestamp < cutoff_date and status == status.value]. *)
Definition old_with_status (cutoff : Z) (s : MonitorStatus) (r : ResultRow) : bool :=
  (res_timestamp r <? cutoff) && MonitorStatus_eqb (res_status r) s.

(** [session.delete] of each row of the batch [firstn n (filter p l)]:
    the first [n] rows satisfying [p] leave the table. *)
Fixpoint drop_first (n : nat) (p : ResultRow -> bool) (l : list ResultRow)
  {struct l} : list ResultRow :=
  match l with
  | [] => []
  | x :: l' =>
      if p x then
        match n with
        | O => l
        | S n' => drop_first n' p l'
        end
      else x :: drop_first n p l'
  end.

(** A Python exception, by its class and what [str()] of it names. *)
Inductive PyExc : Type :=
| NameError (name : string)
| AttributeError (type_name attribute : string).

(** A call that returns a value or raises. *)
Inductive PyResult (A : Type) : Type :=
| Returned (x : A)
| Raised (e : PyExc).

Arguments Returned {A} x.
Arguments Raised {A} e.

(** The module-level names of [result_repository.py]: its imports and
    its class.  [and_] is imported only inside [cleanup_old_results] and
    [get_cleanup_preview], as a local name of those functions. *)
Definition result_repository_globals : list string :=
  ["json"; "List"; "Dict"; "Any"; "datetime"; "timedelta"; "Session";
   "MonitorResult"; "MonitorStatus"; "MonitorType"; "MonitorResultModel";
   "ResultRepository"].

(** Whether a name resolves in a scope. *)
Definition py_bound (name : string) (scope : list string) : bool :=
  existsb (String.eqb name) scope.

(** The [while True] loop of [_cleanup_results_by_status], run on the
    table [rs] with the names [scope] visible to the function; it returns
    [total_deleted] or the exception raised, with the table as committed
    at that point.  Each iteration first evaluates [and_(...)]: an
    unbound [and_] raises [NameError] before the query.  [batch_size] is
    the [.limit()] argument; [fuel] bounds the iterations
    ([_cleanup_results_by_status] gives one more than the number of
    rows, which each non-final iteration decreases). *)
Fixpoint cleanup_loop (scope : list string) (fuel : nat) (p : ResultRow -> bool)
    (batch_size : N) (rs : list ResultRow) (total_deleted : Z)
  : PyResult Z * list ResultRow :=
  match fuel with
  | O => (Returned total_deleted, rs)
  | S fuel' =>
      if negb (py_bound "and_" scope) then (Raised (NameError "and_"), rs)
      else
        let old_results := firstn (N.to_nat batch_size) (filter p rs) in
        match old_results with
        | [] => (Returned total_deleted, rs)
        | _ :: _ =>
            let rs' := drop_first (N.to_nat batch_size) p rs in
            let batch_count := Z.of_nat (length old_results) in
            let total_deleted := total_deleted + batch_count in
            if batch_count <? Z.of_N batch_size
            then (Returned total_deleted, rs')
            else cleanup_loop scope fuel' p batch_size rs' total_deleted
        end
  end.

(** [ResultRepository._cleanup_results_by_status]: its [and_] is looked
    up among the module's globals. *)
Definition _cleanup_results_by_status (rs : list ResultRow) (cutoff_date : Z)
    (s : MonitorStatus) (batch_size : N) : PyResult Z * list ResultRow :=
  cleanup_loop result_repository_globals (S (length rs))
    (old_with_status cutoff_date s) batch_size rs 0.

Record CleanupStats := mkCleanupStats {
  healthy_deleted : Z;
  unhealthy_deleted : Z;
  total_deleted : Z;
  batches_processed : Z;
  errors : list string
}.

(** [ResultRepository.cleanup_old_results], with [now] the reading of
    [datetime.now()] it starts with.  An exception of a status pass is
    appended to [cleanup_stats['errors']] and re-raised, so the caller
    gets the exception and not the statistics.  The deletions are
    committed batch by batch, so [Database.cleanup_old_results]'s
    [session.rollback()] leaves the table as the exception left it. *)
Definition cleanup_old_results (rs : list ResultRow) (keep_healthy_days keep_unhealthy_days : Z)
    (batch_size : N) (now : Z) : PyResult CleanupStats * list ResultRow :=
  let healthy_cutoff := now - keep_healthy_days * DAY in
  let unhealthy_cutoff := now - keep_unhealthy_days * DAY in
  match _cleanup_results_by_status rs healthy_cutoff HEALTHY batch_size with
  | (Raised e, rs) => (Raised e, rs)
  | (Returned healthy_deleted, rs) =>
      match _cleanup_results_by_status rs unhealthy_cutoff UNHEALTHY batch_size with
      | (Raised e, rs) => (Raised e, rs)
      | (Returned d_unhealthy, rs) =>
          match _cleanup_results_by_status rs unhealthy_cutoff UNKNOWN batch_size with
          | (Raised e, rs) => (Raised e, rs)
          | (Returned d_unknown, rs) =>
              let unhealthy_deleted := 0 + d_unhealthy + d_unknown in
              (Returned (mkCleanupStats healthy_deleted unhealthy_deleted
                           (healthy_deleted + unhealthy_deleted) 0 []), rs)
          end
      end
  end.

Record CleanupPreview := mkCleanupPreview {
  healthy_to_delete : Z;
  unhealthy_to_delete : Z;
  total_to_delete : Z;
  total_results : Z;
  retention_after_cleanup : Z
}.

Definition count (p : ResultRow -> bool) (rs : list ResultRow) : Z :=
  Z.of_nat (length (filter p rs)).

(** [ResultRepository.get_cleanup_preview]. *)
Definition get_cleanup_preview (rs : list ResultRow) (keep_healthy_days keep_unhealthy_days : Z)
    (now : Z) : CleanupPreview :=
  let healthy_cutoff := now - keep_healthy_days * DAY in
  let unhealthy_cutoff := now - keep_unhealthy_days * DAY in
  let healthy_count := count (old_with_status healthy_cutoff HEALTHY) rs in
  let unhealthy_count :=
    count (fun r => (res_timestamp r <? unhealthy_cutoff)
                    && (MonitorStatus_eqb (res_status r) UNHEALTHY
                        || MonitorStatus_eqb (res_status r) UNKNOWN)) rs in
  let total_count := Z.of_nat (length rs) in
  mkCleanupPreview healthy_count unhealthy_count (healthy_count + unhealthy_count)
    total_count (total_count - (healthy_count + unhealthy_count)).

(** ** webmonitor/jobs/data_cleanup_job.py: [DataCleanupJob.execute] *)

(** The [data_cleanup] section of the configuration; an absent key is
    [None] and takes the default of the [.get] call. *)
Record CleanupConfig := mkCleanupConfig {
  cfg_enabled : option bool;
  keep_healthy_results_days : option Z;
  keep_unhealthy_results_days : option Z
}.

Definition get_default {A : Type} (o : option A) (d : A) : A :=
  match o with Some x => x | None => d end.

Definition effective_keep_healthy_days (cfg : CleanupConfig) : Z :=
  let k := get_default (keep_healthy_results_days cfg) 7 in
  if k <? 1 then 7 else k.

Definition effective_keep_unhealthy_days (cfg : CleanupConfig) : Z :=
  let k := get_default (keep_unhealthy_results_days cfg) 30 in
  if k <? 1 then 30 else k.

(** [now_preview] and [now_cleanup] are the readings of [datetime.now()]
    taken by the preview and by the cleanup.  The percentage is computed
    in exact rational arithmetic.  An exception of the cleanup is caught
    by the [except Exception] of [execute], which returns [False]. *)
Definition execute (cfg : CleanupConfig) (rs : list ResultRow)
    (now_preview now_cleanup : Z) : bool * list ResultRow :=
  if negb (get_default (cfg_enabled cfg) true) then (true, rs)
  else
    let keep_healthy_days := effective_keep_healthy_days cfg in
    let keep_unhealthy_days := effective_keep_unhealthy_days cfg in
    let preview := get_cleanup_preview rs keep_healthy_days keep_unhealthy_days now_preview in
    if total_to_delete preview =? 0 then (true, rs)
    else if (total_results preview >? 0)
            && negb (Qle_bool ((inject_Z (total_to_delete preview)
                                / inject_Z (total_results preview)) * 100) 90)
    then (false, rs)
    else
      match cleanup_old_results rs keep_healthy_days keep_unhealthy_days 1000 now_cleanup with
      | (Raised _, rs') => (false, rs')
      | (Returned cleanup_stats, rs') =>
          match errors cleanup_stats with
          | [] => (true, rs')
          | _ :: _ => (false, rs')
          end
      end.

(** ** Deleting a space: webmonitor/api/handlers/space_handler.py *)

(** Modelled from the spec: the ORM cascades of the [webmonitor] package,
    whose [infrastructure/database/models.py] is missing (the older
    [utils/database/models.py] declares the same relationships with
    [cascade="all, delete-orphan"]).  "Monitor: delete (cascading to
    results)": [session.delete] of a monitor row also removes the rows of
    its results. *)
Definition MonitorRepository_delete (st : Store) (monitor_id : string) : bool * Store :=
  if existsb (fun m => String.eqb (mr_id m) monitor_id) (monitors st) then
    (true, mkStore (spaces st)
             (filter (fun m => negb (String.eqb (mr_id m) monitor_id)) (monitors st))
             (filter (fun r => negb (String.eqb (res_monitor_id r) monitor_id)) (results st)))
  else (false, st).

(** Modelled from the spec: "Space: delete (cascading to monitors +
    results)"; the space row goes with its monitors and their results. *)
Definition SpaceRepository_delete (st : Store) (space_id : string) : bool * Store :=
  if existsb (fun s => String.eqb (sp_id s) space_id) (spaces st) then
    let gone m := String.eqb (mr_space_id m) space_id in
    let owner_gone r :=
      existsb (fun m => gone m && String.eqb (mr_id m) (res_monitor_id r)) (monitors st) in
    (true, mkStore (filter (fun s => negb (String.eqb (sp_id s) space_id)) (spaces st))
             (filter (fun m => negb (gone m)) (monitors st))
             (filter (fun r => negb (owner_gone r)) (results st)))
  else (false, st).

(** [MonitorRepository.save]: upsert by id. *)
Definition MonitorRepository_save (st : Store) (m : MonitorRow) : Store :=
  if existsb (fun m' => String.eqb (mr_id m') (mr_id m)) (monitors st) then
    mkStore (spaces st)
      (map (fun m' => if String.eqb (mr_id m') (mr_id m) then m else m') (monitors st))
      (results st)
  else mkStore (spaces st) (monitors st ++ [m]) (results st).

Definition get_monitors_for_space (st : Store) (space_id : string) : list MonitorRow :=
  filter (fun m => String.eqb (mr_space_id m) space_id) (monitors st).

(** The store together with the scheduler's [running_monitors]. *)
Record System := mkSystem { store : Store; running_monitors : list MonitorRow }.

(** [MonitorScheduler.stop_all_monitors_in_space]: each running monitor
    of the space is unscheduled, set OFFLINE and saved. *)
Definition stop_all_monitors_in_space (sys : System) (space_id : string) : System :=
  let in_space m := String.eqb (mr_space_id m) space_id in
  let stopped := filter in_space (running_monitors sys) in
  mkSystem
    (fold_left (fun st m => MonitorRepository_save st
                              (mkMonitorRow (mr_id m) (mr_space_id m) OFFLINE))
       stopped (store sys))
    (filter (fun m => negb (in_space m)) (running_monitors sys)).

Inductive Response := RSuccess (message : string) | RError (message : string).

(** [SpaceCommandHandler.delete_space]; [cmd_space_id] is
    [cmd.get('space_id')]. *)
Definition delete_space (sys : System) (cmd_space_id : option string) : Response * System :=
  match cmd_space_id with
  | None | Some EmptyString => (RError "Space ID required", sys)
  | Some space_id =>
      let sys := stop_all_monitors_in_space sys space_id in
      let monitors := get_monitors_for_space (store sys) space_id in
      let st := fold_left (fun st m => snd (MonitorRepository_delete st (mr_id m)))
                  monitors (store sys) in
      let '(success, st) := SpaceRepository_delete st space_id in
      let sys := mkSystem st (running_monitors sys) in
      if success then (RSuccess ("Space " ++ space_id ++ " deleted"), sys)
      else (RError "Space not found or could not be deleted", sys)
  end.

(** [list_spaces] and [list_monitors] read the tables. *)
Definition list_spaces (st : Store) : list string := map sp_id (spaces st).
Definition list_monitors (st : Store) : list MonitorRow := monitors st.

(** No orphans: every monitor's space exists, every result's monitor
    exists, and a result carries the [space_id] of its monitor. *)
Definition no_orphans (st : Store) : Prop :=
  (forall m, In m (monitors st) -> exists s, In s (spaces st) /\ sp_id s = mr_space_id m)
  /\ (forall r, In r (results st) ->
        exists m, In m (monitors st) /\ mr_id m = res_monitor_id r
                  /\ mr_space_id m = res_space_id r).

(** ** webmonitor/utils/encryption_service.py *)

(** A Python [str] is its list of code points (0 to 0x10FFFF, lone
    surrogates included); [bytes] are lists of values 0 to 255. *)
Definition pystr := list Z.
Definition pybytes := list Z.

(** A call either returns or raises an exception with a message. *)
Inductive Result (A : Type) := Ok (a : A) | Err (msg : string).
Arguments Ok {A} a.
Arguments Err {A} msg.

Definition res_bind {A B : Type} (m : Result A) (k : A -> Result B) : Result B :=
  match m with Ok a => k a | Err e => Err e end.

Notation "x <-? m ;; k" := (res_bind m (fun x => k))
  (at level 61, m at next level, right associativity).

Definition of_option {A : Type} (msg : string) (o : option A) : Result A :=
  match o with Some a => Ok a | None => Err msg end.

Definition is_surrogate (c : Z) : bool := (55296 <=? c) && (c <=? 57343).

(** [str.encode('utf-8')] (strict: a surrogate raises). *)
Definition utf8_encode_char (c : Z) : option (list Z) :=
  if c <? 128 then Some [c]
  else if c <? 2048 then Some [192 + c / 64; 128 + c mod 64]
  else if is_surrogate c then None
  else if c <? 65536 then
    Some [224 + c / 4096; 128 + (c / 64) mod 64; 128 + c mod 64]
  else Some [240 + c / 262144; 128 + (c / 4096) mod 64;
             128 + (c / 64) mod 64; 128 + c mod 64].

Fixpoint utf8_encode (s : pystr) : option pybytes :=
  match s with
  | [] => Some []
  | c :: s' =>
      match utf8_encode_char c, utf8_encode s' with
      | Some bs, Some rest => Some (bs ++ rest)%list
      | _, _ => None
      end
  end.

Definition is_cont (b : Z) : bool := (128 <=? b) && (b <? 192).

(** [bytes.decode('utf-8')] (strict): a sequence is accepted iff it is
    well formed; overlong forms, surrogates and values above 0x10FFFF
    raise. *)
Fixpoint utf8_decode (bs : pybytes) : option pystr :=
  match bs with
  | [] => Some []
  | b0 :: rest =>
      if b0 <? 128 then
        option_map (cons b0) (utf8_decode rest)
      else if (192 <=? b0) && (b0 <? 224) then
        match rest with
        | b1 :: rest' =>
            let c := (b0 - 192) * 64 + (b1 - 128) in
            if is_cont b1 && (128 <=? c)
            then option_map (cons c) (utf8_decode rest') else None
        | _ => None
        end
      else if (224 <=? b0) && (b0 <? 240) then
        match rest with
        | b1 :: b2 :: rest' =>
            let c := (b0 - 224) * 4096 + (b1 - 128) * 64 + (b2 - 128) in
            if is_cont b1 && is_cont b2 && (2048 <=? c) && negb (is_surrogate c)
            then option_map (cons c) (utf8_decode rest') else None
        | _ => None
        end
      else if (240 <=? b0) && (b0 <? 248) then
        match rest with
        | b1 :: b2 :: b3 :: rest' =>
            let c := (b0 - 240) * 262144 + (b1 - 128) * 4096
                     + (b2 - 128) * 64 + (b3 - 128) in
            if is_cont b1 && is_cont b2 && is_cont b3
               && (65536 <=? c) && (c <=? 1114111)
            then option_map (cons c) (utf8_decode rest') else None
        | _ => None
        end
      else None
  end.

(** The standard base64 alphabet, as code points. *)
Definition b64_char (v : Z) : Z :=
  if v <? 26 then 65 + v
  else if v <? 52 then 97 + (v - 26)
  else if v <? 62 then 48 + (v - 52)
  else if v =? 62 then 43 else 47.

Definition b64_value (c : Z) : option Z :=
  if (65 <=? c) && (c <=? 90) then Some (c - 65)
  else if (97 <=? c) && (c <=? 122) then Some (c - 97 + 26)
  else if (48 <=? c) && (c <=? 57) then Some (c - 48 + 52)
  else if c =? 43 then Some 62
  else if c =? 47 then Some 63
  else None.

Definition PAD : Z := 61.

(** [base64.b64encode] *)
Fixpoint b64encode (bs : pybytes) : pybytes :=
  match bs with
  | b0 :: b1 :: b2 :: rest =>
      ([b64_char (b0 / 4); b64_char ((b0 mod 4) * 16 + b1 / 16);
       b64_char ((b1 mod 16) * 4 + b2 / 64); b64_char (b2 mod 64)]
      ++ b64encode rest)%list
  | [b0; b1] =>
      [b64_char (b0 / 4); b64_char ((b0 mod 4) * 16 + b1 / 16);
       b64_char ((b1 mod 16) * 4); PAD]
  | [b0] => [b64_char (b0 / 4); b64_char ((b0 mod 4) * 16); PAD; PAD]
  | [] => []
  end.

(** [base64.b64decode] on canonical padded base64 text, which is what
    [b64encode] produces and what [decrypt_data] is given back.  Other
    text gives [None] here; Python is more lenient with it (it skips
    characters outside the alphabet), which no statement below uses. *)
Fixpoint b64decode (cs : pybytes) : option pybytes :=
  match cs with
  | [] => Some []
  | c0 :: c1 :: c2 :: c3 :: rest =>
      match b64_value c0, b64_value c1 with
      | Some s0, Some s1 =>
          let b0 := s0 * 4 + s1 / 16 in
          if (c2 =? PAD) && (c3 =? PAD) then
            match rest with [] => Some [b0] | _ => None end
          else
            match b64_value c2 with
            | Some s2 =>
                let b1 := (s1 mod 16) * 16 + s2 / 4 in
                if c3 =? PAD then
                  match rest with [] => Some [b0; b1] | _ => None end
                else
                  match b64_value c3 with
                  | Some s3 =>
                      let b2 := (s2 mod 4) * 64 + s3 in
                      option_map (fun r => b0 :: b1 :: b2 :: r) (b64decode rest)
                  | None => None
                  end
            | None => None
            end
      | _, _ => None
      end
  | _ => None
  end.

(** The [cryptography] package's Fernet, with the key persisted in the
    key file: [fernet_encrypt key iv time data] (the IV is random and the
    time is the current one) and [fernet_decrypt key token] (no TTL). *)
Section Encryption.

Variable fernet_encrypt : pybytes -> pybytes -> Z -> pybytes -> pybytes.
Variable fernet_decrypt : pybytes -> pybytes -> option pybytes.

(** [EncryptionService.encrypt_data]; [key] is the persisted key. *)
Definition encrypt_data (key iv : pybytes) (time : Z) (data : pystr) : Result pystr :=
  match data with
  | [] => Ok []
  | _ :: _ =>
      data_bytes <-? of_option "Failed to encrypt data" (utf8_encode data) ;;
      let encrypted_bytes := fernet_encrypt key iv time data_bytes in
      of_option "Failed to encrypt data" (utf8_decode (b64encode encrypted_bytes))
  end.

(** [EncryptionService.decrypt_data] *)
Definition decrypt_data (key : pybytes) (encrypted_data : pystr) : Result pystr :=
  match encrypted_data with
  | [] => Ok []
  | _ :: _ =>
      raw <-? of_option "Failed to decrypt data" (utf8_encode encrypted_data) ;;
      encrypted_bytes <-? of_option "Failed to decrypt data" (b64decode raw) ;;
      data_bytes <-? of_option "Failed to decrypt data"
                       (fernet_decrypt key encrypted_bytes) ;;
      of_option "Failed to decrypt data" (utf8_decode data_bytes)
  end.

End Encryption.

(** * Properties *)

(** A check signals failure by the [message] its record carries: the
    records of passing checks have none. *)
Definition signals_failure (entry : string * pyval) : bool :=
  match snd entry with
  | PDict d => has_key "message" d
  | _ => false
  end.

Definition signalled_failures (details : list (string * pyval)) : Z :=
  Z.of_nat (length (filter signals_failure details)).

Definition is_get_error (o : GetOutcome) : bool :=
  match o with GetResponse _ _ => false | _ => true end.

Definition ssl_failed (o : SslOutcome) : bool :=
  match o with SslFailure _ => true | SslCert _ _ _ => false end.

(** C1. [check_url] lists [connection] and [status_code], then [content]
    iff [check_content] is set and [ssl] iff [check_ssl]; its
    [failed_checks] is the number of checks whose record signals a
    failure; it is HEALTHY iff [failed_checks = 0]; and when the GET
    raises, only the connection check fails ([failed_checks = 1], the
    connection record is the only one) while the list is unchanged. *)
Theorem check_url_result_shape (monitor : UrlMonitor) (env : UrlEnv) :
  let r := check_url monitor env in
  r_check_list r =
    (["connection"; "status_code"]
     ++ (if truthy (check_content monitor) then ["content"] else [])
     ++ (if check_ssl monitor then ["ssl"] else []))%list
  /\ r_failed_checks r = signalled_failures (r_details r)
  /\ (r_status r = HEALTHY <-> r_failed_checks r = 0)
  /\ (is_get_error (get_result env) = true ->
      r_failed_checks r = 1 /\ map fst (r_details r) = ["connection"]).
Proof.
  cbv zeta. split; [reflexivity |].
  unfold check_url; cbn [r_failed_checks r_details r_status].
  destruct (get_result env) as [| | | code text]; cbn;
    try (repeat split; try reflexivity; try discriminate; fail).
  unfold url_checks_after_get.
  destruct (negb (code =? expected_status_code monitor));
  destruct (content_missing monitor text);
  destruct (check_ssl monitor); try destruct (ssl_result env);
  cbn; repeat split; try reflexivity; try discriminate; try lia.
Qed.

(** C10. Whenever the GET returns, the details of [check_url] hold a
    [content] record, whatever [check_content] is: [expected] is
    [check_content] and [found] is false (with a message) only when the
    configured content is missing from the body.  When [check_content] is
    not configured ([None]) the record is [{expected: None, found: True}];
    then, as for an empty [check_content], [content] is absent from the
    check list and [failed_checks] and [status] come from the status code
    and SSL checks alone. *)
Theorem check_url_content_entry (monitor : UrlMonitor) (env : UrlEnv)
    (code : Z) (text : string) :
  get_result env = GetResponse code text ->
  let r := check_url monitor env in
  (exists found : bool,
     dict_get "content" (r_details r)
     = Some (PDict ([("expected", opt_str (check_content monitor)); ("found", PBool found)]
                    ++ (if found then [] else [("message", PStr CONTENT_ERROR)]))%list))
  /\ (check_content monitor = None ->
        dict_get "content" (r_details r)
        = Some (PDict [("expected", PNone); ("found", PBool true)]))
  /\ (truthy (check_content monitor) = false ->
        dict_get "content" (r_details r)
        = Some (PDict [("expected", opt_str (check_content monitor)); ("found", PBool true)])
        /\ ~ In "content" (r_check_list r)
        /\ r_failed_checks r =
             (if code =? expected_status_code monitor then 0 else 1)
             + (if (check_ssl monitor && ssl_failed (ssl_result env))%bool then 1 else 0)
        /\ (r_status r = HEALTHY <-> r_failed_checks r = 0)).
Proof.
  intros Hget. cbv zeta.
  unfold check_url; rewrite Hget; cbn [r_failed_checks r_details r_status r_check_list].
  unfold url_check_list, url_checks_after_get, content_missing.
  destruct (check_content monitor) as [c|] eqn:Hcc.
  - destruct (truthy (Some c)) eqn:Ht.
    + cbn [andb]. destruct (py_in c text) eqn:Hin; cbn [negb].
      * split; [| split; intro H; discriminate H].
        exists true.
        destruct (code =? expected_status_code monitor);
        destruct (check_ssl monitor); try destruct (ssl_result env); reflexivity.
      * split; [| split; intro H; discriminate H].
        exists false.
        destruct (code =? expected_status_code monitor);
        destruct (check_ssl monitor); try destruct (ssl_result env); reflexivity.
    + cbn [andb]. split; [| split; [intro H; discriminate H | intros _]].
      * exists true.
        destruct (code =? expected_status_code monitor);
        destruct (check_ssl monitor); try destruct (ssl_result env); reflexivity.
      * cbn [app].
        destruct (code =? expected_status_code monitor);
        destruct (check_ssl monitor); try destruct (ssl_result env);
        cbn; repeat split; try reflexivity; try discriminate; try lia;
        intros H; repeat destruct H as [H | H]; solve [discriminate H | contradiction].
  - cbn [truthy opt_str app].
    refine (conj _ (conj (fun _ => _) (fun _ => conj _ _))).
    + exists true.
      destruct (code =? expected_status_code monitor);
      destruct (check_ssl monitor); try destruct (ssl_result env); reflexivity.
    + destruct (code =? expected_status_code monitor);
      destruct (check_ssl monitor); try destruct (ssl_result env); reflexivity.
    + destruct (code =? expected_status_code monitor);
      destruct (check_ssl monitor); try destruct (ssl_result env); reflexivity.
    + destruct (code =? expected_status_code monitor);
      destruct (check_ssl monitor); try destruct (ssl_result env);
      cbn; repeat split; try reflexivity; try discriminate; try lia;
      intros H; repeat destruct H as [H | H]; solve [discriminate H | contradiction].
Qed.

(** C4. [should_send_notification new prev] holds iff [new] is UNHEALTHY
    when there is no previous result, and iff the status changed
    otherwise. *)
Theorem should_send_notification_spec (result : MonitorResult)
    (previous_result : option MonitorResult) :
  (should_send_notification result previous_result = true <->
   match previous_result with
   | None => r_status result = UNHEALTHY
   | Some prev => r_status result <> r_status prev
   end).
Proof.
  destruct previous_result as [prev |]; cbn.
  - destruct (r_status result), (r_status prev); cbn;
      split; intro H; try reflexivity; try discriminate; congruence.
  - destruct (r_status result); cbn; split; intro H;
      try reflexivity; discriminate.
Qed.

Lemma query_configured_of_strip (s : string) :
  py_strip s <> EmptyString ->
  (truthy (Some s) && truthy (Some (py_strip s)))%bool = true.
Proof.
  intros H. destruct s as [| c s']; [contradiction H; reflexivity |].
  cbn [truthy String.eqb negb andb].
  destruct (py_strip (String c s')); [contradiction H; reflexivity | reflexivity].
Qed.

(** C2. [check_db] lists [connection] and [query]; [failed_checks] is 0,
    1 or 2; it is HEALTHY iff no check failed; a failed connection fails
    both checks; a working connection with a failing test query fails
    one. *)
Theorem check_db_result_shape (monitor : DatabaseMonitor) (env : DbEnv) :
  let r := check_db monitor env in
  r_check_list r = ["connection"; "query"]%list
  /\ (r_failed_checks r = 0 \/ r_failed_checks r = 1 \/ r_failed_checks r = 2)
  /\ (r_status r = HEALTHY <-> r_failed_checks r = 0)
  /\ (connect_ok env = false -> r_failed_checks r = 2 /\ r_status r = UNHEALTHY)
  /\ ((exists u, test_connection_string (db_password env) monitor = inr u) ->
      connect_ok env = true ->
      py_strip (test_query monitor) <> EmptyString ->
      query_ok env = false ->
      r_failed_checks r = 1 /\ r_status r = UNHEALTHY).
Proof.
  cbv zeta. split; [reflexivity |].
  unfold check_db; cbn [r_failed_checks r_status].
  destruct (test_connection_string (db_password env) monitor) as [e | u] eqn:Htcs.
  - cbn. repeat split; intros; try lia; try discriminate.
    match goal with H : exists _, inl _ = inr _ |- _ => destruct H; discriminate end.
  - destruct (connect_ok env) eqn:Hc; [| cbn; repeat split; intros; try lia; discriminate].
    unfold db_checks_after_connect.
    destruct (truthy (Some (test_query monitor))
              && truthy (Some (py_strip (test_query monitor))))%bool eqn:Hq.
    + destruct (timeout_statement monitor); [destruct (set_timeout_ok env) |];
      destruct (query_ok env); cbn;
      repeat split; intros; try lia; try discriminate.
    + cbn. repeat split; intros; try lia; try discriminate.
      all: exfalso; match goal with
           | H : py_strip _ <> EmptyString |- _ =>
               apply query_configured_of_strip in H; congruence
           end.
Qed.

(** The reason [test_connection_string] gives for an unsupported dialect. *)
Definition unsupported_reason (monitor : DatabaseMonitor) : string :=
  "Unsupported database type: " ++ db_type monitor.

Definition supported_dialect (s : string) : bool :=
  String.eqb (lower s) "postgresql" || String.eqb (lower s) "mysql"
  || String.eqb (lower s) "sqlserver".

Definition message_of (check : string) (r : MonitorResult) : option pyval :=
  match dict_get check (r_details r) with
  | Some (PDict d) => dict_get "message" d
  | _ => None
  end.

Lemma test_connection_string_unsupported (password : string) (m : DatabaseMonitor) :
  supported_dialect (db_type m) = false ->
  test_connection_string password m = inl (unsupported_reason m).
Proof.
  unfold supported_dialect, test_connection_string, unsupported_reason.
  intros H. apply orb_false_iff in H as [H H3]. apply orb_false_iff in H as [H1 H2].
  rewrite H1, H2, H3. reflexivity.
Qed.

(** C8 (as amended).  For a dialect other than postgresql, mysql and
    sqlserver (in any case), whatever the driver would do, [check_db]
    fails both checks ([failed_checks = 2], UNHEALTHY) with the generic
    connection messages; the unsupported-dialect reason is not recorded
    in the result. *)
Theorem check_db_unsupported_dialect (monitor : DatabaseMonitor) (env : DbEnv) :
  supported_dialect (db_type monitor) = false ->
  let r := check_db monitor env in
  r_check_list r = ["connection"; "query"]%list
  /\ r_failed_checks r = 2 /\ r_status r = UNHEALTHY
  /\ message_of "connection" r = Some (PStr CONNECTION_ERROR)
  /\ message_of "query" r = Some (PStr QUERY_CONNECTION_ERROR)
  /\ r_details r =
       [("connection", PDict [("connected", PBool false); ("message", PStr CONNECTION_ERROR)]);
        ("query", PDict [("executed", PBool false); ("message", PStr QUERY_CONNECTION_ERROR)])].
Proof.
  intros H. cbv zeta. unfold check_db.
  rewrite (test_connection_string_unsupported _ _ H).
  repeat split; reflexivity.
Qed.

Definition oracle_monitor : DatabaseMonitor :=
  mkDatabaseMonitor
    (mkBaseMonitor "m-ora" "ora" "S1" DATABASE OFFLINE 300 0 None None None)
    "Oracle" "db.local" 1521 "orcl" "scott" "" 10 30 "SELECT 1 FROM DUAL".

Definition working_driver : DbEnv := mkDbEnv "tiger" true true true 1 0 1 2.

(** C8 (as stated fails).  An [Oracle] monitor gets both checks failed,
    but neither record carries the unsupported-dialect reason: the
    messages are the generic connection ones. *)
Lemma check_db_unsupported_reason_not_recorded :
  supported_dialect (db_type oracle_monitor) = false
  /\ message_of "connection" (check_db oracle_monitor working_driver)
       <> Some (PStr (unsupported_reason oracle_monitor))
  /\ message_of "query" (check_db oracle_monitor working_driver)
       <> Some (PStr (unsupported_reason oracle_monitor)).
Proof.
  vm_compute. split; [reflexivity | split; intros H; discriminate H].
Qed.

Lemma check_db_unsupported_dialect_witness :
  supported_dialect (db_type oracle_monitor) = false
  /\ r_failed_checks (check_db oracle_monitor working_driver) = 2.
Proof.
  assert (H : supported_dialect (db_type oracle_monitor) = false) by reflexivity.
  split; [exact H |].
  exact (proj1 (proj2 (check_db_unsupported_dialect oracle_monitor working_driver H))).
Defined.

(** ** The scheduler step *)

Lemma MonitorStatus_eqb_spec (a b : MonitorStatus) :
  MonitorStatus_eqb a b = true <-> a = b.
Proof. destruct a, b; cbn; split; intro; congruence. Qed.

Lemma now_spec (c c' : Clock) (t : Z) :
  now c = (t, c') -> t = clock_now c' /\ clock_now c <= t.
Proof.
  unfold now. destruct (clock_ticks c) as [| d ds]; intros H; inversion H; subst;
    cbn; lia.
Qed.

Lemma base_of_with_base (b : BaseMonitor) (m : Monitor) : base_of (with_base b m) = b.
Proof. destruct m; reflexivity. Qed.

(** C3 (as amended).  One run of [_run_monitor] on a monitor whose stored
    timestamps are not ahead of the clock: [last_checked_at] is set to a
    reading taken during the run, at or after [created_at];
    [last_healthy_at] is left alone unless the result is HEALTHY and
    never decreases; after a HEALTHY run it is the later reading
    ([last_checked_at <= last_healthy_at]), after any other run it is at
    most [last_checked_at]; and the timestamps stay behind the clock, so
    the hypothesis holds again for the next run. *)
Theorem run_monitor_timestamps (m : Monitor) (pe : ProbeEnv) (c : Clock) :
  timestamps_not_ahead (base_of m) c ->
  let '((m', r), c') := _run_monitor m pe c in
  let b := base_of m' in
  (exists tc, last_checked_at b = Some tc /\ created_at b <= tc
              /\ clock_now c <= tc /\ tc <= clock_now c')
  /\ created_at b = created_at (base_of m)
  /\ (r_status r <> HEALTHY -> last_healthy_at b = last_healthy_at (base_of m))
  /\ (r_status r = HEALTHY ->
      exists th, last_healthy_at b = Some th /\ clock_now c <= th /\ th <= clock_now c')
  /\ (forall old, last_healthy_at (base_of m) = Some old ->
      exists new, last_healthy_at b = Some new /\ old <= new)
  /\ (forall th tc, last_healthy_at b = Some th -> last_checked_at b = Some tc ->
      if MonitorStatus_eqb (r_status r) HEALTHY then tc <= th else th <= tc)
  /\ timestamps_not_ahead b c'.
Proof.
  intros [Hcr [Hlc Hlh]].
  unfold _run_monitor, update_last_checked_at, update_last_healthy_at,
    update_timestamp, bind, ret.
  destruct (now c) as [t1 c1] eqn:E1. apply now_spec in E1 as [E1 L1].
  destruct (now c1) as [t2 c2] eqn:E2. apply now_spec in E2 as [E2 L2].
  destruct (MonitorStatus_eqb (r_status (run_check m pe)) HEALTHY) eqn:Hh.
  - apply MonitorStatus_eqb_spec in Hh.
    destruct (now c2) as [t3 c3] eqn:E3. apply now_spec in E3 as [E3 L3].
    destruct (now c3) as [t4 c4] eqn:E4. apply now_spec in E4 as [E4 L4].
    rewrite base_of_with_base; unfold timestamps_not_ahead; cbn.
    refine (conj _ (conj _ (conj _ (conj _ (conj _ (conj _ (conj _ (conj _ _)))))))).
    + exists t1; repeat split; lia.
    + reflexivity.
    + intros Hn; contradiction.
    + intros _; exists t3; repeat split; lia.
    + intros old Hold; exists t3; split; [reflexivity |].
      specialize (Hlh old Hold); lia.
    + rewrite Hh; cbn. intros th tc Hth Htc. inversion Hth; inversion Htc; lia.
    + lia.
    + intros t Ht; inversion Ht; lia.
    + intros t Ht; inversion Ht; lia.
  - assert (Hne : r_status (run_check m pe) <> HEALTHY).
    { intros Heq. apply MonitorStatus_eqb_spec in Heq. congruence. }
    rewrite base_of_with_base; unfold timestamps_not_ahead; cbn.
    refine (conj _ (conj _ (conj _ (conj _ (conj _ (conj _ (conj _ (conj _ _)))))))).
    + exists t1; repeat split; lia.
    + reflexivity.
    + intros _; reflexivity.
    + intros Heq; contradiction.
    + intros old Hold; exists old; split; [exact Hold | lia].
    + rewrite Hh. intros th tc Hth Htc. inversion Htc; subst.
      specialize (Hlh th Hth); lia.
    + lia.
    + intros t Ht; inversion Ht; lia.
    + intros t Ht. specialize (Hlh t Ht); lia.
Qed.

Definition web_monitor : UrlMonitor :=
  mkUrlMonitor (mkBaseMonitor "m-web" "web" "S1" URL UNKNOWN 1 0 None None None)
    "http://127.0.0.1:8080/" 200 1 false true None.

Definition stub_ok : ProbeEnv :=
  mkProbeEnv (mkUrlEnv (GetResponse 200 "hello") (SslFailure "") 1 1 1) working_driver.

(** Each reading of the clock one tick after the previous one. *)
Definition ticking_clock : Clock := mkClock 0 [1; 1; 1; 1]%N.

(** C3 (as stated fails).  A HEALTHY run of [web_monitor] on a clock
    that advances between readings stamps [last_checked_at = 1] and then
    [last_healthy_at = 3]: [last_healthy_at <= last_checked_at] fails
    right after the run. *)
Lemma run_monitor_healthy_stamp_after_checked :
  let '((m', r), _) := _run_monitor (MUrl web_monitor) stub_ok ticking_clock in
  r_status r = HEALTHY
  /\ last_checked_at (base_of m') = Some 1
  /\ last_healthy_at (base_of m') = Some 3
  /\ ~ (forall th tc, last_healthy_at (base_of m') = Some th ->
                      last_checked_at (base_of m') = Some tc -> th <= tc).
Proof.
  vm_compute. refine (conj eq_refl (conj eq_refl (conj eq_refl _))).
  intros H. specialize (H 3 1 eq_refl eq_refl). apply H. reflexivity.
Qed.

Lemma run_monitor_timestamps_witness :
  timestamps_not_ahead (base_of (MUrl web_monitor)) ticking_clock
  /\ (let '((m', r), _) := _run_monitor (MUrl web_monitor) stub_ok ticking_clock in
      exists tc, last_checked_at (base_of m') = Some tc).
Proof.
  assert (H : timestamps_not_ahead (base_of (MUrl web_monitor)) ticking_clock).
  { unfold timestamps_not_ahead, web_monitor, ticking_clock; cbn.
    split; [lia | split; intros t Ht; discriminate Ht]. }
  split; [exact H |].
  pose proof (run_monitor_timestamps (MUrl web_monitor) stub_ok ticking_clock H) as T.
  vm_compute in T |- *. destruct T as [[tc [Htc _]] _]. exists tc; exact Htc.
Defined.

Definition refused_env : UrlEnv := mkUrlEnv GetConnectionError (SslFailure "") 0 1 1.

Lemma check_url_result_shape_witness :
  is_get_error (get_result refused_env) = true
  /\ r_failed_checks (check_url web_monitor refused_env) = 1.
Proof.
  assert (H : is_get_error (get_result refused_env) = true) by reflexivity.
  split; [exact H |].
  exact (proj1 (proj2 (proj2 (proj2 (check_url_result_shape web_monitor refused_env))) H)).
Defined.

Lemma check_url_content_entry_witness :
  get_result (url_env stub_ok) = GetResponse 200 "hello"
  /\ dict_get "content" (r_details (check_url web_monitor (url_env stub_ok)))
     = Some (PDict [("expected", PNone); ("found", PBool true)]).
Proof.
  assert (H1 : get_result (url_env stub_ok) = GetResponse 200 "hello") by reflexivity.
  split; [exact H1 |].
  exact (proj1 (proj2 (check_url_content_entry web_monitor (url_env stub_ok)
                         200 "hello" H1)) eq_refl).
Defined.

Definition refused_driver : DbEnv := mkDbEnv "tiger" false true true 0 0 1 2.

Definition pg_monitor : DatabaseMonitor :=
  mkDatabaseMonitor
    (mkBaseMonitor "m-pg" "pg" "S1" DATABASE OFFLINE 300 0 None None None)
    "PostgreSQL" "db.local" 5432 "app" "monitor" "" 10 30 "SELECT 1".

Lemma check_db_result_shape_witness :
  connect_ok refused_driver = false
  /\ r_failed_checks (check_db pg_monitor refused_driver) = 2.
Proof.
  assert (H : connect_ok refused_driver = false) by reflexivity.
  split; [exact H |].
  exact (proj1 (proj1 (proj2 (proj2 (proj2 (check_db_result_shape pg_monitor refused_driver)))) H)).
Defined.

(** ** Retention *)

(** Whatever the names a scope lacks, a loop run in a scope without
    [and_] raises [NameError] at its first iteration and leaves the
    table as it was. *)
Lemma cleanup_loop_unbound (scope : list string) (fuel : nat) (p : ResultRow -> bool)
    (batch_size : N) (rs : list ResultRow) (acc : Z) :
  py_bound "and_" scope = false ->
  cleanup_loop scope (S fuel) p batch_size rs acc = (Raised (NameError "and_"), rs).
Proof. intro H. cbn [cleanup_loop]. rewrite H. reflexivity. Qed.

Lemma and_not_global : py_bound "and_" result_repository_globals = false.
Proof. reflexivity. Qed.

Lemma cleanup_by_status_raises (rs : list ResultRow) (cutoff : Z) (s : MonitorStatus)
    (batch_size : N) :
  _cleanup_results_by_status rs cutoff s batch_size = (Raised (NameError "and_"), rs).
Proof.
  unfold _cleanup_results_by_status. apply cleanup_loop_unbound, and_not_global.
Qed.

Lemma cleanup_old_results_raises (rs : list ResultRow)
    (keep_healthy_days keep_unhealthy_days : Z) (batch_size : N) (now : Z) :
  cleanup_old_results rs keep_healthy_days keep_unhealthy_days batch_size now
  = (Raised (NameError "and_"), rs).
Proof. unfold cleanup_old_results. rewrite cleanup_by_status_raises. reflexivity. Qed.

(** C6.  [cleanup_old_results] never completes: for every table, both
    retention periods and every [batch_size], the first iteration of
    [_cleanup_results_by_status] for HEALTHY evaluates [and_], which
    [result_repository.py] does not bind at module level, and raises
    [NameError]; [cleanup_old_results] re-raises it.  No row is deleted,
    so every HEALTHY row older than [now - keep_healthy_days] is still
    stored. *)
Theorem cleanup_old_results_name_error (rs : list ResultRow)
    (keep_healthy_days keep_unhealthy_days : Z) (batch_size : N) (now : Z) :
  let '(r, rs') :=
    cleanup_old_results rs keep_healthy_days keep_unhealthy_days batch_size now in
  r = Raised (NameError "and_")
  /\ rs' = rs
  /\ (forall row, In row rs -> res_status row = HEALTHY ->
        res_timestamp row < now - keep_healthy_days * DAY -> In row rs').
Proof.
  rewrite cleanup_old_results_raises.
  refine (conj eq_refl (conj eq_refl _)). intros row Hin _ _. exact Hin.
Qed.

(** A result row stamped at time 0 by a HEALTHY run. *)
Definition old_healthy_row : ResultRow := mkResultRow "r1" "m1" "s1" HEALTHY 0.

Definition old_unhealthy_row : ResultRow := mkResultRow "r3" "m1" "s1" UNHEALTHY 0.

(** C6 counterexample: with the defaults of [execute] ([batch_size]
    1000) and a HEALTHY row ten days old, a seven-day retention raises
    [NameError] and the row stays stored.  The same loop with [and_] in
    scope, as the local imports of [cleanup_old_results] and
    [get_cleanup_preview] give those functions, deletes it. *)
Lemma cleanup_raises_and_keeps_old_row :
  let '(r, rs') := cleanup_old_results [old_healthy_row] 7 30 1000 (10 * DAY) in
  r = Raised (NameError "and_")
  /\ In old_healthy_row rs'
  /\ res_status old_healthy_row = HEALTHY
  /\ res_timestamp old_healthy_row < 10 * DAY - 7 * DAY
  /\ cleanup_loop ("and_" :: result_repository_globals) 2
       (old_with_status (10 * DAY - 7 * DAY) HEALTHY) 1000 [old_healthy_row] 0
     = (Returned 1, []).
Proof.
  vm_compute. refine (conj eq_refl (conj (or_introl eq_refl) (conj eq_refl _))).
  split; reflexivity.
Qed.

(** C5.  When the job is enabled and the preview it computes has
    [total_results > 0] and [total_to_delete / total_results * 100 > 90],
    [execute] returns [False] and leaves the stored results unchanged. *)
Theorem execute_safety_cap (cfg : CleanupConfig) (rs : list ResultRow)
    (now_preview now_cleanup : Z) (preview : CleanupPreview) :
  get_default (cfg_enabled cfg) true = true ->
  get_cleanup_preview rs (effective_keep_healthy_days cfg)
    (effective_keep_unhealthy_days cfg) now_preview = preview ->
  0 < total_results preview ->
  (90 < (inject_Z (total_to_delete preview) / inject_Z (total_results preview)) * 100)%Q ->
  execute cfg rs now_preview now_cleanup = (false, rs).
Proof.
  intros Hen Hp Htr Hpct. unfold execute. rewrite Hen. cbn [negb].
  rewrite Hp.
  destruct (total_to_delete preview =? 0) eqn:Hz.
  - exfalso. apply Z.eqb_eq in Hz. rewrite Hz in Hpct.
    unfold Qdiv, Qmult, Qlt in Hpct. cbn in Hpct. lia.
  - assert (Hb : (total_results preview >? 0) = true) by (apply Z.gtb_lt; exact Htr).
    rewrite Hb. cbn [andb].
    destruct (Qle_bool _ _) eqn:Hq; [| reflexivity].
    exfalso. apply Qle_bool_iff in Hq. apply (Qlt_not_le _ _ Hpct Hq).
Qed.

Definition default_cleanup_config : CleanupConfig := mkCleanupConfig None None None.

Definition only_old_rows : list ResultRow := [old_healthy_row; old_unhealthy_row].

Definition only_old_preview : CleanupPreview :=
  get_cleanup_preview only_old_rows 7 30 (40 * DAY).

Lemma execute_safety_cap_witness :
  get_default (cfg_enabled default_cleanup_config) true = true
  /\ get_cleanup_preview only_old_rows (effective_keep_healthy_days default_cleanup_config)
       (effective_keep_unhealthy_days default_cleanup_config) (40 * DAY) = only_old_preview
  /\ 0 < total_results only_old_preview
  /\ (90 < (inject_Z (total_to_delete only_old_preview)
             / inject_Z (total_results only_old_preview)) * 100)%Q
  /\ execute default_cleanup_config only_old_rows (40 * DAY) (40 * DAY) = (false, only_old_rows).
Proof.
  assert (H1 : get_default (cfg_enabled default_cleanup_config) true = true) by reflexivity.
  assert (H2 : get_cleanup_preview only_old_rows (effective_keep_healthy_days default_cleanup_config)
       (effective_keep_unhealthy_days default_cleanup_config) (40 * DAY) = only_old_preview)
    by reflexivity.
  assert (H3 : 0 < total_results only_old_preview) by (vm_compute; reflexivity).
  assert (H4 : (90 < (inject_Z (total_to_delete only_old_preview)
             / inject_Z (total_results only_old_preview)) * 100)%Q)
    by (vm_compute; reflexivity).
  refine (conj H1 (conj H2 (conj H3 (conj H4 _)))).
  apply (execute_safety_cap default_cleanup_config only_old_rows (40 * DAY) (40 * DAY)
           only_old_preview H1 H2 H3 H4).
Defined.

Lemma existsb_id_iff (ms : list MonitorRow) (x : string) :
  existsb (fun m => String.eqb (mr_id m) x) ms = true <->
  exists m, In m ms /\ mr_id m = x.
Proof.
  rewrite existsb_exists. split; intros [m [Hm He]]; exists m; split; auto.
  - apply String.eqb_eq. exact He.
  - apply String.eqb_eq. exact He.
Qed.

Lemma MonitorRepository_save_spec (st : Store) (n : MonitorRow) :
  let st' := MonitorRepository_save st n in
  spaces st' = spaces st /\ results st' = results st
  /\ (forall m, In m (monitors st') -> In m (monitors st) \/ m = n)
  /\ In n (monitors st')
  /\ (forall m0, In m0 (monitors st) -> In m0 (monitors st') \/ mr_id n = mr_id m0).
Proof.
  unfold MonitorRepository_save.
  destruct (existsb (fun m' => String.eqb (mr_id m') (mr_id n)) (monitors st)) eqn:E.
  - cbn [spaces results monitors].
    refine (conj eq_refl (conj eq_refl (conj _ (conj _ _)))).
    + intros m Hm. apply in_map_iff in Hm as [m' [Hm' Hin]].
      destruct (String.eqb (mr_id m') (mr_id n)); [right | left; subst m']; auto.
    + apply existsb_exists in E as [m' [Hin Heq]].
      apply in_map_iff. exists m'. rewrite Heq. auto.
    + intros m0 Hm0. destruct (String.eqb (mr_id m0) (mr_id n)) eqn:Eq.
      * right. symmetry. apply String.eqb_eq. exact Eq.
      * left. apply in_map_iff. exists m0. rewrite Eq. auto.
  - cbn [spaces results monitors].
    refine (conj eq_refl (conj eq_refl (conj _ (conj _ _)))).
    + intros m Hm. apply in_app_or in Hm as [Hm | [Hm | []]]; auto.
    + apply in_or_app. right. left. reflexivity.
    + intros m0 Hm0. left. apply in_or_app. left. exact Hm0.
Qed.

(** The saves of [stop_all_monitors_in_space] touch neither spaces nor
    results; every monitor row they leave is an old one or a row of the
    space, and an old row is either kept or replaced by a row of the
    space with its id. *)
Lemma stop_saves_spec (space_id : string) (ns : list MonitorRow) (st : Store) :
  (forall n, In n ns -> mr_space_id n = space_id) ->
  let st' := fold_left (fun st m => MonitorRepository_save st
                                      (mkMonitorRow (mr_id m) (mr_space_id m) OFFLINE))
               ns st in
  spaces st' = spaces st /\ results st' = results st
  /\ (forall m, In m (monitors st') -> In m (monitors st) \/ mr_space_id m = space_id)
  /\ (forall m0, In m0 (monitors st) ->
        In m0 (monitors st')
        \/ exists m1, In m1 (monitors st') /\ mr_id m1 = mr_id m0
                      /\ mr_space_id m1 = space_id).
Proof.
  revert st. induction ns as [| n ns IH]; intros st Hns.
  - cbn. refine (conj eq_refl (conj eq_refl (conj _ _))); auto.
  - cbn [fold_left].
    set (n' := mkMonitorRow (mr_id n) (mr_space_id n) OFFLINE).
    assert (Hn' : mr_space_id n' = space_id) by (apply (Hns n); left; reflexivity).
    destruct (MonitorRepository_save_spec st n') as [Hs [Hr [Hin [Hnin Hkeep]]]].
    destruct (IH (MonitorRepository_save st n')) as [Hs' [Hr' [Hin' Hkeep']]].
    { intros x Hx. apply Hns. right. exact Hx. }
    refine (conj _ (conj _ (conj _ _))).
    + rewrite Hs'. exact Hs.
    + rewrite Hr'. exact Hr.
    + intros m Hm. destruct (Hin' m Hm) as [Hm1 | Hm1]; [| right; exact Hm1].
      destruct (Hin m Hm1) as [Hm2 | Hm2]; [left; exact Hm2 | right; subst m; exact Hn'].
    + intros m0 Hm0. destruct (Hkeep m0 Hm0) as [Hm1 | Hid].
      * destruct (Hkeep' m0 Hm1) as [Hm2 | Hm2]; [left; exact Hm2 | right; exact Hm2].
      * right. destruct (Hkeep' n' Hnin) as [Hm2 | [m1 [Hm1 [Hid1 Hsp1]]]].
        -- exists n'. auto.
        -- exists m1. rewrite Hid1. auto.
Qed.

(** The deletes of [delete_space]: a monitor row stays unless its id was
    deleted; a result row stays unless its monitor id was deleted while a
    monitor row with that id existed. *)
Lemma delete_monitors_spec (ms : list MonitorRow) (st : Store) :
  let st' := fold_left (fun st m => snd (MonitorRepository_delete st (mr_id m))) ms st in
  spaces st' = spaces st
  /\ (forall m, In m (monitors st') <-> In m (monitors st) /\ ~ In (mr_id m) (map mr_id ms))
  /\ (forall r, In r (results st') <->
        In r (results st)
        /\ ~ (In (res_monitor_id r) (map mr_id ms)
              /\ exists m, In m (monitors st) /\ mr_id m = res_monitor_id r)).
Proof.
  revert st. induction ms as [| a ms IH]; intros st.
  - cbn. refine (conj eq_refl (conj _ _)); intros; tauto.
  - cbn [fold_left map].
    set (x := mr_id a).
    destruct (IH (snd (MonitorRepository_delete st x))) as [Hs [Hm Hr]].
    remember (snd (MonitorRepository_delete st x)) as st1 eqn:Hst1.
    unfold MonitorRepository_delete in Hst1.
    destruct (existsb (fun m => String.eqb (mr_id m) x) (monitors st)) eqn:E;
      cbn [snd] in Hst1;
      [ assert (Hsp : spaces st1 = spaces st) by (rewrite Hst1; reflexivity);
        assert (Hmo : monitors st1 = filter (fun m => negb (String.eqb (mr_id m) x))
                                        (monitors st)) by (rewrite Hst1; reflexivity);
        assert (Hre : results st1 = filter (fun r => negb (String.eqb (res_monitor_id r) x))
                                       (results st)) by (rewrite Hst1; reflexivity);
        rewrite Hsp in Hs; rewrite Hmo in Hm, Hr; rewrite Hre in Hr; clear Hst1
      | subst st1 ].
    + refine (conj Hs (conj _ _)).
      * intros m. rewrite Hm, filter_In. cbn [In].
        rewrite Bool.negb_true_iff, String.eqb_neq. split.
        -- intros [[H1 H2] H3]. split; [exact H1 |]. intros [H4 | H4]; auto.
        -- intros [H1 H2]. split; [split; [exact H1 |] |]; intros H3; apply H2; auto.
      * intros r. rewrite Hr, filter_In. cbn [In].
        rewrite Bool.negb_true_iff, String.eqb_neq. split.
        -- intros [[H1 H2] H3]. split; [exact H1 |].
           intros [[H4 | H4] [m [Hm1 Hm2]]]; [congruence |].
           apply H3. split; [exact H4 |]. exists m. split; [| exact Hm2].
           rewrite filter_In, Bool.negb_true_iff, String.eqb_neq. split; congruence.
        -- intros [H1 H2]. split; [split; [exact H1 |] |].
           ++ intros H3. apply H2. split; [left; symmetry; exact H3 |].
              apply existsb_id_iff in E as [m [Hm1 Hm2]]. exists m. split; congruence.
           ++ intros [H3 [m [Hm1 Hm2]]]. apply H2. split; [right; exact H3 |].
              apply filter_In in Hm1 as [Hm1 _]. exists m. auto.
    + assert (Hx : forall m, In m (monitors st) -> mr_id m <> x).
      { intros m Hm1 Hm2. assert (E' : existsb (fun m => String.eqb (mr_id m) x)
                                        (monitors st) = true)
          by (apply existsb_id_iff; exists m; auto). congruence. }
      refine (conj Hs (conj _ _)).
      * intros m. rewrite Hm. cbn [In]. split.
        -- intros [H1 H2]. split; [exact H1 |]. intros [H3 | H3]; [| auto].
           apply (Hx m H1). symmetry. exact H3.
        -- intros [H1 H2]. split; [exact H1 |]. intros H3. apply H2. right. exact H3.
      * intros r. rewrite Hr. cbn [In]. split.
        -- intros [H1 H2]. split; [exact H1 |].
           intros [[H3 | H3] [m [Hm1 Hm2]]].
           ++ apply (Hx m Hm1). congruence.
           ++ apply H2. split; [exact H3 |]. exists m. auto.
        -- intros [H1 H2]. split; [exact H1 |].
           intros [H3 H4]. apply H2. split; [right; exact H3 | exact H4].
Qed.

Lemma SpaceRepository_delete_spec (st : Store) (space_id : string) :
  let '(ok, st') := SpaceRepository_delete st space_id in
  (ok = true <-> exists s, In s (spaces st) /\ sp_id s = space_id)
  /\ (forall s, In s (spaces st') <-> In s (spaces st) /\ sp_id s <> space_id)
  /\ (forall m, In m (monitors st') -> In m (monitors st))
  /\ (forall m, In m (monitors st) -> mr_space_id m <> space_id -> In m (monitors st'))
  /\ (forall r, In r (results st') -> In r (results st))
  /\ (forall r, In r (results st) ->
        (forall m, In m (monitors st) -> mr_id m = res_monitor_id r ->
                   mr_space_id m <> space_id) ->
        In r (results st')).
Proof.
  unfold SpaceRepository_delete.
  destruct (existsb (fun s => String.eqb (sp_id s) space_id) (spaces st)) eqn:E.
  - cbn [spaces monitors results].
    refine (conj _ (conj _ (conj _ (conj _ (conj _ _))))).
    + split; [intros _ | reflexivity].
      apply existsb_exists in E as [s [Hs He]]. exists s.
      split; [exact Hs | apply String.eqb_eq; exact He].
    + intros s. rewrite filter_In, Bool.negb_true_iff, String.eqb_neq. tauto.
    + intros m Hm. apply filter_In in Hm. tauto.
    + intros m Hm Hsp. apply filter_In. split; [exact Hm |].
      apply Bool.negb_true_iff, String.eqb_neq. exact Hsp.
    + intros r Hr. apply filter_In in Hr. tauto.
    + intros r Hr Hown. apply filter_In. split; [exact Hr |].
      apply Bool.negb_true_iff. destruct (existsb _ (monitors st)) eqn:F; [| reflexivity].
      exfalso. apply existsb_exists in F as [m [Hm Hf]].
      apply andb_true_iff in Hf as [Hg Hid].
      apply String.eqb_eq in Hg. apply String.eqb_eq in Hid.
      exact (Hown m Hm Hid Hg).
  - refine (conj _ (conj _ (conj _ (conj _ (conj _ _))))); auto.
    + split; [discriminate |]. intros [s [Hs He]].
      assert (E' : existsb (fun s => String.eqb (sp_id s) space_id) (spaces st) = true).
      { apply existsb_exists. exists s. split; [exact Hs | apply String.eqb_eq; exact He]. }
      congruence.
    + intros s. split; [| tauto]. intros Hs. split; [exact Hs |]. intros He.
      assert (E' : existsb (fun s => String.eqb (sp_id s) space_id) (spaces st) = true).
      { apply existsb_exists. exists s. split; [exact Hs | apply String.eqb_eq; exact He]. }
      congruence.
Qed.

(** C7.  Deleting a space by [delete_space] (with a non-empty
    [space_id], in a store without orphans) leaves no space with that id,
    no monitor of that space, no result of that space and no result of
    any monitor the space had; the scheduler runs no monitor of the
    space; the store is still free of orphans; and the answer is a
    success exactly when the space existed.  [list_spaces] and
    [list_monitors] read these tables. *)
Theorem delete_space_no_orphans (sys : System) (space_id : string) :
  space_id <> EmptyString ->
  no_orphans (store sys) ->
  let '(resp, sys') := delete_space sys (Some space_id) in
  ~ In space_id (list_spaces (store sys'))
  /\ (forall m, In m (list_monitors (store sys')) -> mr_space_id m <> space_id)
  /\ (forall r, In r (results (store sys')) -> res_space_id r <> space_id)
  /\ (forall r, In r (results (store sys')) ->
        forall m, In m (monitors (store sys)) -> mr_space_id m = space_id ->
                  res_monitor_id r <> mr_id m)
  /\ (forall m, In m (running_monitors sys') -> mr_space_id m <> space_id)
  /\ no_orphans (store sys')
  /\ ((exists msg, resp = RSuccess msg) <-> In space_id (list_spaces (store sys))).
Proof.
  intros Hne Hno.
  destruct space_id as [| c s0]; [congruence |].
  unfold delete_space.
  set (S := String c s0) in *.
  set (st0 := store sys) in *.
  set (sys1 := stop_all_monitors_in_space sys S).
  set (st1 := store sys1).
  set (ms := get_monitors_for_space st1 S).
  set (st2 := fold_left (fun st m => snd (MonitorRepository_delete st (mr_id m))) ms st1).
  assert (H1 : spaces st1 = spaces st0 /\ results st1 = results st0
               /\ (forall m, In m (monitors st1) -> In m (monitors st0) \/ mr_space_id m = S)
               /\ (forall m0, In m0 (monitors st0) ->
                     In m0 (monitors st1)
                     \/ exists m1, In m1 (monitors st1) /\ mr_id m1 = mr_id m0
                                   /\ mr_space_id m1 = S)).
  { apply (stop_saves_spec S (filter (fun m => String.eqb (mr_space_id m) S)
                                (running_monitors sys)) st0).
    intros n Hn. apply filter_In in Hn as [_ Hn]. apply String.eqb_eq. exact Hn. }
  destruct H1 as [Sp1 [Re1 [Mo1 Keep1]]].
  assert (H2 : spaces st2 = spaces st1
               /\ (forall m, In m (monitors st2) <->
                             In m (monitors st1) /\ ~ In (mr_id m) (map mr_id ms))
               /\ (forall r, In r (results st2) <->
                     In r (results st1)
                     /\ ~ (In (res_monitor_id r) (map mr_id ms)
                           /\ exists m, In m (monitors st1) /\ mr_id m = res_monitor_id r)))
    by exact (delete_monitors_spec ms st1).
  destruct H2 as [Sp2 [Mo2 Re2]].
  assert (Hms : forall m, In m (monitors st1) -> mr_space_id m = S -> In (mr_id m) (map mr_id ms)).
  { intros m Hm Hs. apply in_map. apply filter_In. split; [exact Hm |].
    apply String.eqb_eq. exact Hs. }
  assert (K1 : forall m, In m (monitors st2) -> In m (monitors st0) /\ mr_space_id m <> S).
  { intros m Hm. apply Mo2 in Hm as [Hm Hid].
    assert (Hs : mr_space_id m <> S) by (intros Hs; exact (Hid (Hms m Hm Hs))).
    split; [| exact Hs]. destruct (Mo1 m Hm) as [H | H]; [exact H | contradiction]. }
  assert (K2 : forall r, In r (results st2) -> forall m, In m (monitors st1) ->
                 mr_id m = res_monitor_id r -> mr_space_id m <> S).
  { intros r Hr m Hm Hid Hs. apply Re2 in Hr as [_ Hr]. apply Hr. split.
    - rewrite <- Hid. exact (Hms m Hm Hs).
    - exists m. auto. }
  assert (K3 : forall r, In r (results st2) ->
                 exists m, In m (monitors st2) /\ mr_id m = res_monitor_id r
                           /\ mr_space_id m = res_space_id r).
  { intros r Hr. pose proof Hr as Hr'. apply Re2 in Hr' as [Hr1 Hnot].
    rewrite Re1 in Hr1. destruct Hno as [_ Hnr].
    destruct (Hnr r Hr1) as [m0 [Hm0 [Hid Hsp]]].
    destruct (Keep1 m0 Hm0) as [Hm1 | [m1 [Hm1 [Hid1 Hsp1]]]].
    - exists m0. split; [| auto]. apply Mo2. split; [exact Hm1 |].
      intros Hin. apply Hnot. split; [rewrite <- Hid; exact Hin |]. exists m0. auto.
    - exfalso. apply (K2 r Hr m1 Hm1); [congruence | exact Hsp1]. }
  assert (K4 : forall r, In r (results st2) -> res_space_id r <> S).
  { intros r Hr. destruct (K3 r Hr) as [m [Hm [_ Hsp]]]. rewrite <- Hsp.
    apply (K1 m Hm). }
  assert (K5 : forall r, In r (results st2) -> forall m, In m (monitors st0) ->
                 mr_space_id m = S -> res_monitor_id r <> mr_id m).
  { intros r Hr m Hm Hs Hid. destruct (Keep1 m Hm) as [Hm1 | [m1 [Hm1 [Hid1 Hsp1]]]].
    - exact (K2 r Hr m Hm1 (eq_sym Hid) Hs).
    - apply (K2 r Hr m1 Hm1); [congruence | exact Hsp1]. }
  assert (Hrun : forall m, In m (running_monitors sys1) -> mr_space_id m <> S).
  { intros m Hm. cbn [sys1 stop_all_monitors_in_space running_monitors] in Hm.
    apply filter_In in Hm as [_ Hm]. apply Bool.negb_true_iff, String.eqb_neq in Hm.
    exact Hm. }
  pose proof (SpaceRepository_delete_spec st2 S) as H3.
  destruct (SpaceRepository_delete st2 S) as [success st3].
  destruct H3 as [Ok3 [Sp3 [Mo3 [Mo3' [Re3 Re3']]]]].
  assert (Hgoal :
    ~ In S (list_spaces st3)
    /\ (forall m, In m (list_monitors st3) -> mr_space_id m <> S)
    /\ (forall r, In r (results st3) -> res_space_id r <> S)
    /\ (forall r, In r (results st3) -> forall m, In m (monitors st0) ->
          mr_space_id m = S -> res_monitor_id r <> mr_id m)
    /\ no_orphans st3).
  { refine (conj _ (conj _ (conj _ (conj _ _)))).
    - unfold list_spaces. intros Hin. apply in_map_iff in Hin as [s [Hid Hs]].
      apply Sp3 in Hs as [_ Hs]. exact (Hs Hid).
    - intros m Hm. apply (K1 m (Mo3 m Hm)).
    - intros r Hr. apply (K4 r (Re3 r Hr)).
    - intros r Hr. apply (K5 r (Re3 r Hr)).
    - split.
      + intros m Hm. apply Mo3 in Hm. destruct (K1 m Hm) as [Hm0 Hs].
        destruct Hno as [Hnm _]. destruct (Hnm m Hm0) as [s [Hs0 Hid]].
        exists s. split; [| exact Hid]. apply Sp3. split; [| congruence].
        rewrite Sp2, Sp1. exact Hs0.
      + intros r Hr. apply Re3 in Hr. destruct (K3 r Hr) as [m [Hm [Hid Hsp]]].
        exists m. split; [| auto]. apply Mo3'; [exact Hm |].
        rewrite Hsp. apply (K4 r Hr). }
  assert (Hex : (exists s, In s (spaces st2) /\ sp_id s = S) <-> In S (list_spaces st0)).
  { unfold list_spaces. rewrite in_map_iff, Sp2, Sp1. firstorder. }
  destruct Hgoal as [G1 [G2 [G3 [G4 G5]]]].
  destruct success; cbn [store running_monitors];
    refine (conj G1 (conj G2 (conj G3 (conj G4 (conj Hrun (conj G5 _)))))).
  - split; [intros _ | intros _; eexists; reflexivity].
    apply Hex, Ok3. reflexivity.
  - split; [intros [msg Hmsg]; discriminate Hmsg |].
    intros Hin. apply Hex, Ok3 in Hin. discriminate Hin.
Qed.

(** A decision procedure for [no_orphans] on concrete stores. *)
Definition no_orphansb (st : Store) : bool :=
  forallb (fun m => existsb (fun s => String.eqb (sp_id s) (mr_space_id m)) (spaces st))
    (monitors st)
  && forallb (fun r => existsb (fun m => String.eqb (mr_id m) (res_monitor_id r)
                                        && String.eqb (mr_space_id m) (res_space_id r))
                         (monitors st))
       (results st).

Lemma no_orphansb_sound (st : Store) : no_orphansb st = true -> no_orphans st.
Proof.
  unfold no_orphansb. intros H. apply andb_true_iff in H as [Hm Hr]. split.
  - intros m Hin. rewrite forallb_forall in Hm. specialize (Hm m Hin).
    apply existsb_exists in Hm as [s [Hs He]]. exists s.
    split; [exact Hs | apply String.eqb_eq; exact He].
  - intros r Hin. rewrite forallb_forall in Hr. specialize (Hr r Hin).
    apply existsb_exists in Hr as [m [Hmin He]]. apply andb_true_iff in He as [H1 H2].
    exists m. split; [exact Hmin |].
    split; apply String.eqb_eq; assumption.
Qed.

(** Two spaces; [s1] has monitors [m1] (running) and [m2] with three
    results, [s2] has monitor [m3] with one result. *)
Definition two_space_system : System :=
  mkSystem
    (mkStore [mkSpaceRow "s1"; mkSpaceRow "s2"]
       [mkMonitorRow "m1" "s1" HEALTHY; mkMonitorRow "m2" "s1" UNHEALTHY;
        mkMonitorRow "m3" "s2" HEALTHY]
       [mkResultRow "r1" "m1" "s1" HEALTHY 1; mkResultRow "r2" "m2" "s1" UNHEALTHY 2;
        mkResultRow "r3" "m1" "s1" HEALTHY 3; mkResultRow "r4" "m3" "s2" HEALTHY 4])
    [mkMonitorRow "m1" "s1" HEALTHY; mkMonitorRow "m3" "s2" HEALTHY].

Lemma delete_space_no_orphans_witness :
  "s1" <> EmptyString /\ no_orphans (store two_space_system)
  /\ (let '(resp, sys') := delete_space two_space_system (Some "s1") in
      ~ In "s1" (list_spaces (store sys'))
      /\ (forall m, In m (list_monitors (store sys')) -> mr_space_id m <> "s1")
      /\ (forall r, In r (results (store sys')) -> res_space_id r <> "s1")
      /\ (forall r, In r (results (store sys')) ->
            forall m, In m (monitors (store two_space_system)) -> mr_space_id m = "s1" ->
                      res_monitor_id r <> mr_id m)
      /\ (forall m, In m (running_monitors sys') -> mr_space_id m <> "s1")
      /\ no_orphans (store sys')
      /\ ((exists msg, resp = RSuccess msg)
          <-> In "s1" (list_spaces (store two_space_system)))).
Proof.
  assert (Hne : "s1" <> EmptyString) by discriminate.
  assert (Hno : no_orphans (store two_space_system))
    by (apply no_orphansb_sound; vm_compute; reflexivity).
  refine (conj Hne (conj Hno _)).
  apply (delete_space_no_orphans two_space_system "s1" Hne Hno).
Defined.

(** ** Encryption round trip *)

(** A [bytes] element. *)
Definition is_byte (b : Z) : Prop := 0 <= b < 256.

(** A code point that [str.encode('utf-8')] accepts. *)
Definition valid_scalar (c : Z) : bool :=
  (0 <=? c) && (c <=? 1114111) && negb (is_surrogate c).

Ltac decide_cmps :=
  repeat match goal with
  | |- context [?a <? ?b] => destruct (Z.ltb_spec a b); try (exfalso; lia)
  | |- context [?a <=? ?b] => destruct (Z.leb_spec a b); try (exfalso; lia)
  | |- context [?a =? ?b] => destruct (Z.eqb_spec a b); try (exfalso; lia)
  end.

Ltac divmod64 c :=
  pose proof (Z.div_mod c 64 ltac:(lia)); pose proof (Z.mod_pos_bound c 64 ltac:(lia)).

Ltac close_decode :=
  unfold is_cont, is_surrogate; decide_cmps; cbn [andb negb];
  match goal with
  | |- option_map (cons ?x) ?y = option_map (cons ?z) ?y =>
      replace x with z by lia; reflexivity
  end.

Lemma utf8_char_roundtrip (c : Z) (rest : pybytes) :
  valid_scalar c = true ->
  exists bs, utf8_encode_char c = Some bs /\ Forall is_byte bs
             /\ utf8_decode (bs ++ rest)%list = option_map (cons c) (utf8_decode rest).
Proof.
  unfold valid_scalar, is_surrogate. intros Hv.
  apply andb_true_iff in Hv as [Hv Hs]. apply andb_true_iff in Hv as [H0 H1].
  apply Z.leb_le in H0. apply Z.leb_le in H1. apply Bool.negb_true_iff in Hs.
  assert (Hsur : c < 55296 \/ 57343 < c).
  { destruct (Z.leb_spec 55296 c), (Z.leb_spec c 57343); cbn in Hs; try discriminate; lia. }
  clear Hs.
  unfold utf8_encode_char, is_surrogate.
  divmod64 c. set (q1 := c / 64) in *. set (r0 := c mod 64) in *.
  divmod64 q1. set (q2 := q1 / 64) in *. set (r1 := q1 mod 64) in *.
  divmod64 q2. set (q3 := q2 / 64) in *. set (r2 := q2 mod 64) in *.
  assert (E4096 : c / 4096 = q2).
  { unfold q2, q1. rewrite Z.div_div by lia. reflexivity. }
  assert (E262144 : c / 262144 = q3).
  { unfold q3, q2, q1. rewrite !Z.div_div by lia. reflexivity. }
  rewrite E4096, E262144. fold r2.
  clearbody q1 r0 q2 r1 q3 r2.
  decide_cmps; cbn [andb negb];
    (eexists; split; [reflexivity |]; split;
     [repeat (apply Forall_cons; [unfold is_byte; lia |]); apply Forall_nil
     | cbn [app utf8_decode]; first [decide_cmps; reflexivity | close_decode]]).
Qed.

Lemma utf8_roundtrip (s : pystr) :
  forallb valid_scalar s = true ->
  exists bs, utf8_encode s = Some bs /\ Forall is_byte bs /\ utf8_decode bs = Some s.
Proof.
  induction s as [| c s IH]; intros Hv.
  - exists []. split; [reflexivity | split; [constructor | reflexivity]].
  - cbn [forallb] in Hv. apply andb_true_iff in Hv as [Hc Hs].
    destruct (IH Hs) as [bs' [He [Hb Hd]]].
    destruct (utf8_char_roundtrip c bs' Hc) as [bc [Hec [Hbc Hdc]]].
    exists (bc ++ bs')%list. split; [| split].
    + cbn [utf8_encode]. rewrite Hec, He. reflexivity.
    + apply Forall_app. split; assumption.
    + rewrite Hdc, Hd. reflexivity.
Qed.

Definition is_ascii (c : Z) : Prop := 0 <= c < 128.

Lemma utf8_ascii (cs : list Z) :
  Forall is_ascii cs -> utf8_encode cs = Some cs /\ utf8_decode cs = Some cs.
Proof.
  induction 1 as [| c cs Hc _ [He Hd]]; [split; reflexivity |].
  unfold is_ascii in Hc. split.
  - cbn [utf8_encode]. unfold utf8_encode_char.
    destruct (Z.ltb_spec c 128); [| lia]. rewrite He. reflexivity.
  - cbn [utf8_decode]. destruct (Z.ltb_spec c 128); [| lia]. rewrite Hd. reflexivity.
Qed.

Lemma b64_char_spec (v : Z) :
  0 <= v < 64 ->
  is_ascii (b64_char v) /\ b64_char v <> PAD /\ b64_value (b64_char v) = Some v.
Proof.
  intros Hv. unfold b64_char, b64_value, is_ascii, PAD.
  decide_cmps; cbn [andb];
    (split; [lia | split; [lia |]]); decide_cmps; cbn [andb]; decide_cmps;
    f_equal; lia.
Qed.


Ltac b64_facts v Ha Hp Hv :=
  let H := fresh "Hb" in
  assert (H : 0 <= v < 64) by (Z.div_mod_to_equations; lia);
  destruct (b64_char_spec v H) as [Ha [Hp Hv]].

Ltac ascii_list :=
  repeat (apply Forall_cons; [first [assumption | unfold is_ascii, PAD; lia] |]);
  try apply Forall_nil.

Lemma b64_roundtrip (bs : pybytes) :
  Forall is_byte bs ->
  Forall is_ascii (b64encode bs) /\ b64decode (b64encode bs) = Some bs.
Proof.
  intros Hbs. remember (length bs) as n eqn:Hn.
  revert bs Hn Hbs. induction n as [n IH] using lt_wf_ind. intros bs Hn Hbs.
  destruct bs as [| b0 [| b1 [| b2 rest]]].
  - split; [constructor | reflexivity].
  - apply Forall_inv in Hbs as Hb0. unfold is_byte in Hb0.
    cbn [b64encode].
    b64_facts (b0 / 4) A0 P0 V0. b64_facts ((b0 mod 4) * 16) A1 P1 V1.
    split; [ascii_list |].
    cbn [b64decode]. rewrite V0, V1. unfold PAD. rewrite Z.eqb_refl. cbn [andb].
    repeat f_equal. Z.div_mod_to_equations. lia.
  - apply Forall_inv in Hbs as Hb0. apply Forall_inv_tail, Forall_inv in Hbs as Hb1.
    unfold is_byte in Hb0, Hb1.
    cbn [b64encode].
    b64_facts (b0 / 4) A0 P0 V0. b64_facts ((b0 mod 4) * 16 + b1 / 16) A1 P1 V1.
    b64_facts ((b1 mod 16) * 4) A2 P2 V2.
    split; [ascii_list |].
    cbn [b64decode]. rewrite V0, V1.
    destruct (Z.eqb_spec (b64_char (b1 mod 16 * 4)) PAD) as [E | _]; [contradiction |].
    cbn [andb]. rewrite V2. unfold PAD. rewrite Z.eqb_refl.
    repeat f_equal; Z.div_mod_to_equations; lia.
  - apply Forall_inv in Hbs as Hb0. apply Forall_inv_tail in Hbs as Hbs1.
    apply Forall_inv in Hbs1 as Hb1. apply Forall_inv_tail in Hbs1 as Hbs2.
    apply Forall_inv in Hbs2 as Hb2. apply Forall_inv_tail in Hbs2 as Hrest.
    unfold is_byte in Hb0, Hb1, Hb2.
    destruct (IH (length rest)) with (bs := rest) as [Ar Dr];
      [cbn in Hn; lia | reflexivity | exact Hrest |].
    cbn [b64encode].
    b64_facts (b0 / 4) A0 P0 V0. b64_facts ((b0 mod 4) * 16 + b1 / 16) A1 P1 V1.
    b64_facts ((b1 mod 16) * 4 + b2 / 64) A2 P2 V2. b64_facts (b2 mod 64) A3 P3 V3.
    split; [cbn [app]; ascii_list; exact Ar |].
    cbn [app b64decode]. rewrite V0, V1.
    destruct (Z.eqb_spec (b64_char (b1 mod 16 * 4 + b2 / 64)) PAD) as [E | _];
      [contradiction |].
    cbn [andb]. rewrite V2.
    destruct (Z.eqb_spec (b64_char (b2 mod 64)) PAD) as [E | _]; [contradiction |].
    rewrite V3, Dr. cbn [option_map].
    repeat f_equal; Z.div_mod_to_equations; lia.
Qed.

Lemma b64encode_nonempty (bs : pybytes) : bs <> [] -> b64encode bs <> [].
Proof.
  destruct bs as [| b0 [| b1 [| b2 rest]]]; cbn; congruence.
Qed.

(** Fernet is taken as given: its tokens are non-empty byte strings, and
    with the same key [decrypt] gives back what [encrypt] was given. *)
Section RoundTrip.

Variable fernet_encrypt : pybytes -> pybytes -> Z -> pybytes -> pybytes.
Variable fernet_decrypt : pybytes -> pybytes -> option pybytes.
Variable key : pybytes.

Hypothesis fernet_token_bytes :
  forall iv time data, Forall is_byte data -> Forall is_byte (fernet_encrypt key iv time data).
Hypothesis fernet_token_nonempty :
  forall iv time data, fernet_encrypt key iv time data <> [].
Hypothesis fernet_decrypt_encrypt :
  forall iv time data, Forall is_byte data ->
  fernet_decrypt key (fernet_encrypt key iv time data) = Some data.

(** C9 (as amended).  For every non-empty string [s] whose code points
    UTF-8 can encode (no lone surrogate), [encrypt_data] with the
    persisted key returns a ciphertext, and [decrypt_data] with that key
    returns [s] from it. *)
Theorem encrypt_decrypt_roundtrip (iv : pybytes) (time : Z) (s : pystr) :
  s <> [] ->
  forallb valid_scalar s = true ->
  exists c, encrypt_data fernet_encrypt key iv time s = Ok c
            /\ decrypt_data fernet_decrypt key c = Ok s.
Proof.
  intros Hne Hv.
  destruct (utf8_roundtrip s Hv) as [bs [He [Hb Hd]]].
  set (tok := fernet_encrypt key iv time bs).
  destruct (b64_roundtrip tok (fernet_token_bytes iv time bs Hb)) as [Ha Hdec].
  destruct (utf8_ascii (b64encode tok) Ha) as [Hae Had].
  exists (b64encode tok). split.
  - unfold encrypt_data. destruct s as [| c0 s']; [congruence |].
    cbn [res_bind]. rewrite He. cbn [of_option res_bind]. fold tok.
    rewrite Had. reflexivity.
  - unfold decrypt_data.
    destruct (b64encode tok) as [| c0 cs] eqn:Ec.
    + exfalso. apply (b64encode_nonempty tok (fernet_token_nonempty iv time bs)). exact Ec.
    + rewrite Hae. cbn [of_option res_bind]. rewrite Hdec.
      cbn [of_option res_bind]. unfold tok. rewrite (fernet_decrypt_encrypt iv time bs Hb).
      cbn [of_option res_bind]. rewrite Hd. reflexivity.
Qed.

End RoundTrip.

(** A stand-in for Fernet that satisfies the hypotheses above: the token
    is a version byte followed by the data. *)
Definition toy_fernet_encrypt (key iv : pybytes) (time : Z) (data : pybytes) : pybytes :=
  128 :: data.

Definition toy_fernet_decrypt (key token : pybytes) : option pybytes :=
  match token with
  | b :: data => if b =? 128 then Some data else None
  | [] => None
  end.

(** C9 counterexample: the one-character string U+D800 (a lone
    surrogate, a valid Python [str]) is non-empty, but
    [data.encode('utf-8')] raises, so [encrypt_data] raises and there is
    no ciphertext to decrypt. *)
Lemma lone_surrogate_not_encrypted :
  [55296] <> []
  /\ encrypt_data toy_fernet_encrypt [] [] 0 [55296] = Err "Failed to encrypt data".
Proof.
  split; [discriminate | vm_compute; reflexivity].
Qed.

(** Code points of one to four UTF-8 bytes: h, U+00E9, U+20AC, U+1F600. *)
Definition sample_password : pystr := [104; 233; 8364; 128512].

Lemma encrypt_decrypt_roundtrip_witness :
  sample_password <> [] /\ forallb valid_scalar sample_password = true
  /\ exists c, encrypt_data toy_fernet_encrypt [] [] 0 sample_password = Ok c
              /\ decrypt_data toy_fernet_decrypt [] c = Ok sample_password.
Proof.
  assert (Hne : sample_password <> []) by discriminate.
  assert (Hv : forallb valid_scalar sample_password = true) by (vm_compute; reflexivity).
  refine (conj Hne (conj Hv _)).
  apply (encrypt_decrypt_roundtrip toy_fernet_encrypt toy_fernet_decrypt []).
  - intros iv time data Hd. apply Forall_cons; [unfold is_byte; lia | exact Hd].
  - intros iv time data. discriminate.
  - intros iv time data _. reflexivity.
  - exact Hne.
  - exact Hv.
Defined.

(** * Further properties of the retention job, the probes, the
    connection string and the password property *)


Lemma filter_disjoint_length {A : Type} (f g : A -> bool) (l : list A) :
  (forall x, f x = true -> g x = false) ->
  (length (filter f l) + length (filter g l) <= length l)%nat.
Proof.
  intro Hd. induction l as [|x l IH]; [reflexivity|].
  cbn [filter length]. destruct (f x) eqn:Ef.
  - rewrite (Hd x Ef). cbn [length]. lia.
  - destruct (g x); cbn [length]; lia.
Qed.

(** The counts of [get_cleanup_preview] are consistent: the rows to
    delete are the old HEALTHY ones plus the old UNHEALTHY or UNKNOWN
    ones, no row is counted twice, so at most all rows are to be deleted,
    and [retention_after_cleanup] is what the table keeps. *)
Theorem get_cleanup_preview_bounds (rs : list ResultRow)
    (keep_healthy_days keep_unhealthy_days now : Z) :
  let p := get_cleanup_preview rs keep_healthy_days keep_unhealthy_days now in
  0 <= healthy_to_delete p
  /\ 0 <= unhealthy_to_delete p
  /\ total_to_delete p = healthy_to_delete p + unhealthy_to_delete p
  /\ total_to_delete p <= total_results p
  /\ total_results p = Z.of_nat (length rs)
  /\ 0 <= retention_after_cleanup p
  /\ retention_after_cleanup p = total_results p - total_to_delete p.
Proof.
  cbv zeta. unfold get_cleanup_preview, count.
  cbn [healthy_to_delete unhealthy_to_delete total_to_delete total_results
       retention_after_cleanup].
  match goal with
  | |- context [length (filter ?f rs)] =>
      match goal with
      | |- context [length (filter ?g rs)] =>
          assert (Hd : (length (filter f rs) + length (filter g rs) <= length rs)%nat)
            by (apply filter_disjoint_length; intros r Hr;
                unfold old_with_status in Hr; apply andb_true_iff in Hr as [_ Hr];
                apply MonitorStatus_eqb_spec in Hr; rewrite Hr; apply andb_false_r)
      end
  end.
  lia.
Qed.

(** Once the GET has returned, [check_url] fails one check for a wrong
    status code, one for configured content missing from the body and
    one for a failed certificate fetch when [check_ssl] is set; how many
    days the certificate has left never counts.  The details always hold
    the connection, status code and content records, and the SSL record
    iff [check_ssl]. *)
Theorem check_url_failures_after_response (monitor : UrlMonitor) (env : UrlEnv)
    (code : Z) (text : string) :
  get_result env = GetResponse code text ->
  let r := check_url monitor env in
  r_failed_checks r =
    (if code =? expected_status_code monitor then 0 else 1)
    + (if content_missing monitor text then 1 else 0)
    + (if (check_ssl monitor && ssl_failed (ssl_result env))%bool then 1 else 0)
  /\ (r_status r = HEALTHY <-> r_failed_checks r = 0)
  /\ map fst (r_details r) =
       (["connection"; "status_code"; "content"]
        ++ (if check_ssl monitor then ["ssl"] else []))%list.
Proof.
  intros Hget. cbv zeta.
  unfold check_url; rewrite Hget; cbn [r_failed_checks r_details r_status].
  unfold url_checks_after_get.
  destruct (code =? expected_status_code monitor);
  destruct (content_missing monitor text);
  destruct (check_ssl monitor); try destruct (ssl_result env);
  cbn; repeat split; try reflexivity; try discriminate; try lia.
Qed.

Lemma check_url_failures_after_response_witness :
  get_result (mkUrlEnv (GetResponse 200 "ok") (SslCert "" (-3) []) 0 1 1) = GetResponse 200 "ok"
  /\ (let r := check_url web_monitor (mkUrlEnv (GetResponse 200 "ok") (SslCert "" (-3) []) 0 1 1) in
      r_failed_checks r =
        (if 200 =? expected_status_code web_monitor then 0 else 1)
        + (if content_missing web_monitor "ok" then 1 else 0)
        + (if (check_ssl web_monitor
               && ssl_failed (ssl_result (mkUrlEnv (GetResponse 200 "ok")
                                            (SslCert "" (-3) []) 0 1 1)))%bool
           then 1 else 0)
      /\ (r_status r = HEALTHY <-> r_failed_checks r = 0)
      /\ map fst (r_details r) =
           (["connection"; "status_code"; "content"]
            ++ (if check_ssl web_monitor then ["ssl"] else []))%list).
Proof.
  assert (H : get_result (mkUrlEnv (GetResponse 200 "ok") (SslCert "" (-3) []) 0 1 1)
              = GetResponse 200 "ok") by reflexivity.
  split; [exact H |].
  apply (check_url_failures_after_response web_monitor _ 200 "ok" H).
Defined.

Lemma supported_test_connection_string (password : string) (m : DatabaseMonitor) :
  supported_dialect (db_type m) = true ->
  (exists u, test_connection_string password m = inr u)
  /\ (exists st, timeout_statement m = Some st).
Proof.
  unfold supported_dialect, test_connection_string, timeout_statement.
  intros H.
  destruct (String.eqb (lower (db_type m)) "postgresql"); [split; eexists; reflexivity |].
  destruct (String.eqb (lower (db_type m)) "mysql"); [split; eexists; reflexivity |].
  destruct (String.eqb (lower (db_type m)) "sqlserver"); [split; eexists; reflexivity |].
  discriminate H.
Qed.

Lemma query_configured_iff (s : string) :
  (truthy (Some s) && truthy (Some (py_strip s)))%bool = true <-> py_strip s <> EmptyString.
Proof.
  split.
  - intros H E. rewrite E in H. rewrite andb_false_r in H. discriminate H.
  - apply query_configured_of_strip.
Qed.

(** For a supported dialect, [check_db] is HEALTHY exactly when the
    connection opens and either the test query is blank or both the
    timeout statement and the test query run. *)
Theorem check_db_healthy_iff (monitor : DatabaseMonitor) (env : DbEnv) :
  supported_dialect (db_type monitor) = true ->
  (r_status (check_db monitor env) = HEALTHY
   <-> connect_ok env = true
       /\ (py_strip (test_query monitor) = EmptyString
           \/ (set_timeout_ok env = true /\ query_ok env = true))).
Proof.
  intros Hs.
  destruct (supported_test_connection_string (db_password env) monitor Hs)
    as [[u Hu] [st Hst]].
  unfold check_db. rewrite Hu. cbn [r_status].
  destruct (connect_ok env); [| cbn; split; [discriminate | intros [H _]; discriminate H]].
  unfold db_checks_after_connect. rewrite Hst.
  destruct (truthy (Some (test_query monitor))
            && truthy (Some (py_strip (test_query monitor))))%bool eqn:Hq.
  - apply query_configured_iff in Hq.
    destruct (set_timeout_ok env), (query_ok env); cbn;
      split; intros H; try discriminate; try reflexivity;
      try (split; [reflexivity |]); try (right; split; reflexivity);
      destruct H as [_ [H | [H1 H2]]]; try contradiction; discriminate.
  - assert (E : py_strip (test_query monitor) = EmptyString).
    { destruct (py_strip (test_query monitor)) eqn:E; [reflexivity |].
      exfalso. assert (Hne : py_strip (test_query monitor) <> EmptyString)
        by (rewrite E; discriminate).
      apply query_configured_iff in Hne. congruence. }
    cbn. split; [intros _; split; [reflexivity | left; exact E] | reflexivity].
Qed.

Lemma check_db_healthy_iff_witness :
  supported_dialect (db_type pg_monitor) = true
  /\ (r_status (check_db pg_monitor working_driver) = HEALTHY
      <-> connect_ok working_driver = true
          /\ (py_strip (test_query pg_monitor) = EmptyString
              \/ (set_timeout_ok working_driver = true /\ query_ok working_driver = true))).
Proof.
  assert (H : supported_dialect (db_type pg_monitor) = true) by reflexivity.
  split; [exact H | apply (check_db_healthy_iff pg_monitor working_driver H)].
Defined.

(** With a blank test query ([""] or white space only), [check_db] on a
    working connection never runs a query: the details hold the
    connection record only and the result is HEALTHY, while [query] is
    still listed. *)
Theorem check_db_blank_query (monitor : DatabaseMonitor) (env : DbEnv) :
  supported_dialect (db_type monitor) = true ->
  connect_ok env = true ->
  py_strip (test_query monitor) = EmptyString ->
  let r := check_db monitor env in
  r_details r = [("connection", PDict [("connected", PBool true)])]
  /\ r_failed_checks r = 0 /\ r_status r = HEALTHY
  /\ r_check_list r = ["connection"; "query"]%list.
Proof.
  intros Hs Hc Hb. cbv zeta.
  destruct (supported_test_connection_string (db_password env) monitor Hs)
    as [[u Hu] _].
  unfold check_db. rewrite Hu, Hc. unfold db_checks_after_connect.
  destruct (truthy (Some (test_query monitor))
            && truthy (Some (py_strip (test_query monitor))))%bool eqn:Hq.
  - apply query_configured_iff in Hq. contradiction.
  - repeat split; reflexivity.
Qed.

(** A PostgreSQL monitor whose test query is three spaces. *)
Definition blank_query_monitor : DatabaseMonitor :=
  mkDatabaseMonitor
    (mkBaseMonitor "m-pg2" "pg2" "S1" DATABASE OFFLINE 300 0 None None None)
    "postgresql" "db.local" 5432 "app" "monitor" "" 10 30 "   ".

Lemma check_db_blank_query_witness :
  supported_dialect (db_type blank_query_monitor) = true
  /\ connect_ok working_driver = true
  /\ py_strip (test_query blank_query_monitor) = EmptyString
  /\ (let r := check_db blank_query_monitor working_driver in
      r_details r = [("connection", PDict [("connected", PBool true)])]
      /\ r_failed_checks r = 0 /\ r_status r = HEALTHY
      /\ r_check_list r = ["connection"; "query"]%list).
Proof.
  assert (H1 : supported_dialect (db_type blank_query_monitor) = true) by reflexivity.
  assert (H2 : connect_ok working_driver = true) by reflexivity.
  assert (H3 : py_strip (test_query blank_query_monitor) = EmptyString) by reflexivity.
  refine (conj H1 (conj H2 (conj H3 _))).
  apply (check_db_blank_query blank_query_monitor working_driver H1 H2 H3).
Defined.

(** [pred c] for every character of [s]. *)
Fixpoint all_chars (pred : ascii -> bool) (s : string) : bool :=
  match s with
  | EmptyString => true
  | String c s' => pred c && all_chars pred s'
  end.

(** The characters [quote_plus] may output: letters, digits, [_.-~],
    [+] for a space and [%] for an escape. *)
Definition quoted_char (c : ascii) : bool :=
  let n := nat_of_ascii c in
  ((Nat.leb 48 n && Nat.leb n 57) || (Nat.leb 65 n && Nat.leb n 90)
   || (Nat.leb 97 n && Nat.leb n 122)
   || Ascii.eqb c "_" || Ascii.eqb c "." || Ascii.eqb c "-"
   || Ascii.eqb c "~" || Ascii.eqb c "+" || Ascii.eqb c "%")%bool.

Lemma quote_char_quoted (c : ascii) : all_chars quoted_char (quote_char c) = true.
Proof.
  destruct c as [[] [] [] [] [] [] [] []]; vm_compute; reflexivity.
Qed.

Lemma all_chars_app (pred : ascii -> bool) (s t : string) :
  all_chars pred (s ++ t) = (all_chars pred s && all_chars pred t)%bool.
Proof.
  induction s as [| c s IH]; [reflexivity |].
  cbn [append all_chars]. rewrite IH. apply andb_assoc.
Qed.

Lemma all_chars_In (pred : ascii -> bool) (s : string) (c : ascii) :
  all_chars pred s = true -> In c (list_ascii_of_string s) -> pred c = true.
Proof.
  induction s as [| d s IH]; cbn; [contradiction |].
  intros H [E | Hin]; apply andb_true_iff in H as [Hd Hs].
  - subst. exact Hd.
  - apply IH; assumption.
Qed.

(** [urllib.parse.quote_plus] only outputs letters, digits, [_.-~], [+]
    and [%]: an encoded password never contains the [@], [:], [/], [?]
    or [#] that delimit the parts of a connection URL, nor a space. *)
Theorem quote_plus_url_safe (s : string) :
  all_chars quoted_char (quote_plus s) = true
  /\ (forall c, In c (list_ascii_of_string (quote_plus s)) ->
        c <> "@"%char /\ c <> ":"%char /\ c <> "/"%char /\ c <> "?"%char
        /\ c <> "#"%char /\ c <> " "%char).
Proof.
  assert (H : all_chars quoted_char (quote_plus s) = true).
  { induction s as [| c s IH]; [reflexivity |].
    cbn [quote_plus]. rewrite all_chars_app, quote_char_quoted, IH. reflexivity. }
  split; [exact H |].
  intros c Hin. pose proof (all_chars_In _ _ _ H Hin) as Hc.
  repeat split; intros E; subst c; vm_compute in Hc; discriminate Hc.
Qed.

(** The inverse of [quote_plus] ([urllib.parse.unquote_plus] on what
    [quote_plus] outputs), used to show that no two passwords share an
    encoding. *)
Definition hex_value (c : ascii) : nat :=
  let n := nat_of_ascii c in
  if Nat.leb n 57 then n - 48 else n - 55.

Fixpoint unquote_plus (s : string) : string :=
  match s with
  | EmptyString => EmptyString
  | String c s' =>
      if Ascii.eqb c "+" then String " " (unquote_plus s')
      else if Ascii.eqb c "%" then
        match s' with
        | String h1 (String h2 s'') =>
            String (ascii_of_nat (16 * hex_value h1 + hex_value h2)) (unquote_plus s'')
        | _ => String c (unquote_plus s')
        end
      else String c (unquote_plus s')
  end.

Lemma unquote_quote_char (c : ascii) (rest : string) :
  unquote_plus (quote_char c ++ rest) = String c (unquote_plus rest).
Proof.
  destruct c as [[] [] [] [] [] [] [] []]; reflexivity.
Qed.

Lemma unquote_quote_plus (s : string) : unquote_plus (quote_plus s) = s.
Proof.
  induction s as [| c s IH]; [reflexivity |].
  cbn [quote_plus]. rewrite unquote_quote_char, IH. reflexivity.
Qed.

Lemma string_app_assoc (a b c : string) : (a ++ b) ++ c = a ++ (b ++ c).
Proof.
  induction a as [| x a IH]; cbn; [reflexivity | rewrite IH; reflexivity].
Qed.

Lemma string_app_inv_l (p a b : string) : p ++ a = p ++ b -> a = b.
Proof.
  induction p as [| c p IH]; cbn; [auto |].
  intros H. injection H as H. apply IH, H.
Qed.

Lemma split_at_first_at (a b x y : string) :
  all_chars quoted_char a = true -> all_chars quoted_char b = true ->
  a ++ String "@" x = b ++ String "@" y -> a = b.
Proof.
  revert b. induction a as [| c a IH]; intros b Ha Hb H.
  - destruct b as [| d b]; [reflexivity |].
    cbn in H, Hb. injection H as Hd _. subst d. discriminate Hb.
  - destruct b as [| d b].
    + cbn in H, Ha. injection H as Hc _. subst c. discriminate Ha.
    + cbn in H, Ha, Hb. injection H as Hcd H. subst d.
      apply andb_true_iff in Ha as [_ Ha]. apply andb_true_iff in Hb as [_ Hb].
      rewrite (IH b Ha Hb H). reflexivity.
Qed.

Lemma userinfo_inj (u q1 q2 rest1 rest2 : string) :
  all_chars quoted_char q1 = true -> all_chars quoted_char q2 = true ->
  u ++ (":" ++ (q1 ++ ("@" ++ rest1)))
  = u ++ (":" ++ (q2 ++ ("@" ++ rest2))) -> q1 = q2.
Proof.
  intros H1 H2 H. apply string_app_inv_l in H.
  cbn [append] in H. injection H as H. exact (split_at_first_at _ _ _ _ H1 H2 H).
Qed.

(** For a supported dialect the connection string determines the
    password: two passwords that give the same
    [test_connection_string] are equal. *)
Theorem test_connection_string_password_injective (p1 p2 : string) (m : DatabaseMonitor) :
  supported_dialect (db_type m) = true ->
  test_connection_string p1 m = test_connection_string p2 m -> p1 = p2.
Proof.
  intros Hs H.
  assert (Hq : quote_plus p1 = quote_plus p2).
  { destruct (quote_plus_url_safe p1) as [S1 _].
    destruct (quote_plus_url_safe p2) as [S2 _].
    unfold supported_dialect, test_connection_string in *.
    destruct (String.eqb (lower (db_type m)) "postgresql");
      [| destruct (String.eqb (lower (db_type m)) "mysql");
         [| destruct (String.eqb (lower (db_type m)) "sqlserver"); [| discriminate Hs]]];
      injection H as H; rewrite ?string_app_assoc in H; cbn [append] in H;
      rewrite ?string_app_assoc in H; cbn [append] in H;
      exact (userinfo_inj _ _ _ _ _ S1 S2 H). }
  rewrite <- (unquote_quote_plus p1), <- (unquote_quote_plus p2), Hq.
  reflexivity.
Qed.

Lemma test_connection_string_password_injective_witness :
  supported_dialect (db_type pg_monitor) = true
  /\ test_connection_string "p@ss" pg_monitor = test_connection_string "p@ss" pg_monitor
  /\ "p@ss" = "p@ss".
Proof.
  assert (H1 : supported_dialect (db_type pg_monitor) = true) by reflexivity.
  assert (H2 : test_connection_string "p@ss" pg_monitor
               = test_connection_string "p@ss" pg_monitor) by reflexivity.
  refine (conj H1 (conj H2 _)).
  exact (test_connection_string_password_injective "p@ss" "p@ss" pg_monitor H1 H2).
Defined.

(** ** The [password] property of [DatabaseMonitor] (models/monitor.py) *)

(** The getter, on the value of [encrypted_password]: [""] when it is
    empty or when [decrypt_password] raises. *)
Definition password_getter (fernet_decrypt : pybytes -> pybytes -> option pybytes)
    (key : pybytes) (encrypted_password : pystr) : pystr :=
  match encrypted_password with
  | [] => []
  | _ :: _ =>
      match decrypt_data fernet_decrypt key encrypted_password with
      | Ok p => p
      | Err _ => []
      end
  end.

(** The setter: it stores [""] for an empty password, and otherwise the
    ciphertext, then calls [update_timestamp]; a failing encryption
    raises.  The result is the monitor's base fields and its new
    [encrypted_password]. *)
Definition password_setter
    (fernet_encrypt : pybytes -> pybytes -> Z -> pybytes -> pybytes)
    (key iv : pybytes) (time : Z) (m : BaseMonitor) (plain_password : pystr)
  : ST (Result (BaseMonitor * pystr)) :=
  match plain_password with
  | [] => ret (Ok (m, []))
  | _ :: _ =>
      match encrypt_data fernet_encrypt key iv time plain_password with
      | Ok enc => m' <- update_timestamp m ;; ret (Ok (m', enc))
      | Err e => ret (Err ("Failed to encrypt password for monitor " ++ name m ++ ": " ++ e))
      end
  end.

Section PasswordProperty.

Variable fernet_encrypt : pybytes -> pybytes -> Z -> pybytes -> pybytes.
Variable fernet_decrypt : pybytes -> pybytes -> option pybytes.
Variable key : pybytes.

Hypothesis fernet_token_bytes :
  forall iv time data, Forall is_byte data -> Forall is_byte (fernet_encrypt key iv time data).
Hypothesis fernet_token_nonempty :
  forall iv time data, fernet_encrypt key iv time data <> [].
Hypothesis fernet_decrypt_encrypt :
  forall iv time data, Forall is_byte data ->
  fernet_decrypt key (fernet_encrypt key iv time data) = Some data.

Lemma encrypt_data_then_decrypt (iv : pybytes) (time : Z) (s : pystr) :
  s <> [] -> forallb valid_scalar s = true ->
  exists c, c <> []
            /\ encrypt_data fernet_encrypt key iv time s = Ok c
            /\ decrypt_data fernet_decrypt key c = Ok s.
Proof.
  intros Hne Hv.
  destruct (utf8_roundtrip s Hv) as [bs [He [Hb Hd]]].
  set (tok := fernet_encrypt key iv time bs).
  destruct (b64_roundtrip tok (fernet_token_bytes iv time bs Hb)) as [Ha Hdec].
  destruct (utf8_ascii (b64encode tok) Ha) as [Hae Had].
  pose proof (b64encode_nonempty tok (fernet_token_nonempty iv time bs)) as Hne'.
  exists (b64encode tok). split; [exact Hne' | split].
  - unfold encrypt_data. destruct s as [| c0 s']; [congruence |].
    cbn [res_bind]. rewrite He. cbn [of_option res_bind]. fold tok.
    rewrite Had. reflexivity.
  - unfold decrypt_data.
    destruct (b64encode tok) as [| c0 cs]; [congruence |].
    rewrite Hae. cbn [of_option res_bind]. rewrite Hdec.
    cbn [of_option res_bind]. unfold tok. rewrite (fernet_decrypt_encrypt iv time bs Hb).
    cbn [of_option res_bind]. rewrite Hd. reflexivity.
Qed.

(** Setting the [password] property and reading it back gives the same
    password, for every string UTF-8 can encode, the empty one included;
    only a non-empty password touches [updated_at], and nothing else of
    the monitor changes. *)
Theorem password_set_then_get (iv : pybytes) (time : Z) (m : BaseMonitor)
    (plain_password : pystr) (c : Clock) :
  forallb valid_scalar plain_password = true ->
  let '(res, c') := password_setter fernet_encrypt key iv time m plain_password c in
  exists m' enc,
    res = Ok (m', enc)
    /\ password_getter fernet_decrypt key enc = plain_password
    /\ (plain_password = [] -> m' = m /\ enc = [] /\ c' = c)
    /\ (plain_password <> [] -> m' = set_updated_at (clock_now c') m).
Proof.
  intros Hv. unfold password_setter.
  destruct plain_password as [| ch rest] eqn:Hp.
  - cbn. exists m, []. refine (conj eq_refl (conj eq_refl (conj _ _))).
    + intros _. repeat split.
    + intros Hnn; contradiction Hnn; reflexivity.
  - destruct (encrypt_data_then_decrypt iv time (ch :: rest) ltac:(discriminate) Hv)
      as [enc [Hne [He Hd]]].
    rewrite He. unfold update_timestamp, bind, ret.
    destruct (now c) as [t c1] eqn:Hn.
    pose proof (now_spec c c1 t Hn) as Ht.
    exists (set_updated_at t m), enc. refine (conj eq_refl (conj _ (conj _ _))).
    + unfold password_getter. destruct enc as [| e es]; [congruence |].
      rewrite Hd. reflexivity.
    + intros Hnil; discriminate Hnil.
    + intros _. f_equal. destruct Ht as [Ht _]. exact Ht.
Qed.

End PasswordProperty.

Lemma password_set_then_get_witness :
  forallb valid_scalar sample_password = true
  /\ (let '(res, c') := password_setter toy_fernet_encrypt [] [] 0 (d_base pg_monitor)
                          sample_password ticking_clock in
      exists m' enc,
        res = Ok (m', enc)
        /\ password_getter toy_fernet_decrypt [] enc = sample_password
        /\ (sample_password = [] -> m' = d_base pg_monitor /\ enc = [] /\ c' = ticking_clock)
        /\ (sample_password <> [] -> m' = set_updated_at (clock_now c') (d_base pg_monitor))).
Proof.
  assert (Hv : forallb valid_scalar sample_password = true) by (vm_compute; reflexivity).
  split; [exact Hv |].
  apply (password_set_then_get toy_fernet_encrypt toy_fernet_decrypt []).
  - intros iv time data Hd. apply Forall_cons; [unfold is_byte; lia | exact Hd].
  - intros iv time data. discriminate.
  - intros iv time data _. reflexivity.
  - exact Hv.
Defined.

Module MonitorScheduler.

(** ** webmonitor/services/scheduler.py: the running monitors *)

Definition mid (m : Monitor) : string := mon_id (base_of m).

(** [__eq__] of [UrlMonitor] and [DatabaseMonitor]: same class and same
    [id]; [__hash__] is the hash of the [id]. *)
Definition key_eqb (a b : Monitor) : bool :=
  match a, b with
  | MUrl x, MUrl y => String.eqb (mon_id (u_base x)) (mon_id (u_base y))
  | MDb x, MDb y => String.eqb (mon_id (d_base x)) (mon_id (d_base y))
  | _, _ => false
  end.

(** [running_monitors.pop(k)]: the entry whose key equals [k] leaves
    the dict. *)
Fixpoint dict_pop (k : Monitor) (d : list (Monitor * nat)) : list (Monitor * nat) :=
  match d with
  | [] => []
  | (k', v) :: d' => if key_eqb k' k then d' else (k', v) :: dict_pop k d'
  end.

(** [schedule.cancel_job(job)]: [jobs.remove(job)], a missing job
    ignored.  A job is its number and its interval in seconds. *)
Fixpoint cancel_job (job : nat) (jobs : list (nat * Z)) : list (nat * Z) :=
  match jobs with
  | [] => []
  | (j, iv) :: js => if Nat.eqb j job then js else (j, iv) :: cancel_job job js
  end.

(** The scheduler's state: [running_monitors] (each monitor object with
    its job, in insertion order), the values of [system_job_schedules],
    the job list of [schedule]'s default scheduler and the number the
    next job created gets. *)
Record Scheduler := mkScheduler {
  sched_running : list (Monitor * nat);
  system_job_schedules : list (string * nat);
  schedule_jobs : list (nat * Z);
  next_job : nat
}.

Definition set_monitor_status (s : MonitorStatus) (m : Monitor) : Monitor :=
  with_base (set_status s (base_of m)) m.

(** The [Database] the scheduler is given, the I/O a probe observes and
    the e-mail notification are the environment.  The database calls
    return normally. *)
Section Scheduler.

Variable D : Type.
Variable db_save_monitor : Monitor -> D -> D.
Variable db_save_result : MonitorResult -> D -> D.
Variable db_get_monitor : string -> D -> option Monitor.
Variable db_get_monitors_for_space : string -> D -> list Monitor.
(** [get_results_for_monitor(id, limit=1)], first element. *)
Variable db_latest_result : string -> D -> option MonitorResult.
(** [get_space] and [send_monitor_result_email] to the space's
    notification addresses, if it has any. *)
Variable notify : Monitor -> MonitorResult -> D -> D.
(** The outcome of the probe's network or driver calls. *)
Variable probe : Monitor -> Clock -> ProbeEnv.

Record World := mkWorld { w_clock : Clock; w_db : D }.

Definition monitor_update_timestamp (m : Monitor) (w : World) : Monitor * World :=
  let '(b, c) := update_timestamp (base_of m) (w_clock w) in
  (with_base b m, mkWorld c (w_db w)).

Definition save_monitor (m : Monitor) (w : World) : World :=
  mkWorld (w_clock w) (db_save_monitor m (w_db w)).

(** [MonitorScheduler._run_monitor] as a whole: the probe and the
    updates of [_run_monitor] above, then the result and the monitor
    saved and the notification sent on a status change.  It returns the
    monitor object as the run leaves it. *)
Definition run_monitor_job (monitor : Monitor) (w : World) : Monitor * World :=
  let '((monitor, result), c) :=
    _run_monitor monitor (probe monitor (w_clock w)) (w_clock w) in
  let previous_result := db_latest_result (mid monitor) (w_db w) in
  let d := db_save_result result (w_db w) in
  let d := db_save_monitor monitor d in
  let d := if should_send_notification result previous_result
           then notify monitor result d else d in
  (monitor, mkWorld c d).

Definition is_monitor_running (s : Scheduler) (monitor_id : string) : bool :=
  existsb (fun p => String.eqb (mid (fst p)) monitor_id) (sched_running s).

(** [schedule_monitor].  The dict key and the object [_run_monitor]
    updates are the same object, so the entry holds the monitor as the
    first run leaves it. *)
Definition schedule_monitor (s : Scheduler) (monitor : Monitor) (w : World)
  : bool * Scheduler * World :=
  if is_monitor_running s (mid monitor) then (false, s, w)
  else
    let interval_seconds := check_interval_seconds (base_of monitor) in
    let job := next_job s in
    let jobs := (schedule_jobs s ++ [(job, interval_seconds)])%list in
    let monitor := set_monitor_status UNKNOWN monitor in
    let '(monitor, w) := monitor_update_timestamp monitor w in
    let w := save_monitor monitor w in
    let '(monitor, w) := run_monitor_job monitor w in
    (true, mkScheduler (sched_running s ++ [(monitor, job)])%list
             (system_job_schedules s) jobs (S job), w).

Definition stop_monitor (s : Scheduler) (monitor_id : string) (w : World)
  : bool * Scheduler * World :=
  match find (fun p => String.eqb (mid (fst p)) monitor_id) (sched_running s) with
  | None => (false, s, w)
  | Some (monitor_to_stop, job) =>
      let running := dict_pop monitor_to_stop (sched_running s) in
      let jobs := cancel_job job (schedule_jobs s) in
      let w :=
        match db_get_monitor monitor_id (w_db w) with
        | Some monitor =>
            let monitor := set_monitor_status OFFLINE monitor in
            let '(monitor, w) := monitor_update_timestamp monitor w in
            save_monitor monitor w
        | None => w
        end in
      (true, mkScheduler running (system_job_schedules s) jobs (next_job s), w)
  end.

(** One iteration of the loop of [stop_all_monitors_in_space] over
    [list(self.running_monitors.items())]. *)
Definition stop_in_space_step (space : string) (acc : Scheduler * World)
    (entry : Monitor * nat) : Scheduler * World :=
  let '(s, w) := acc in
  let '(monitor, job) := entry in
  if String.eqb (space_id (base_of monitor)) space then
    let jobs := cancel_job job (schedule_jobs s) in
    let running := dict_pop monitor (sched_running s) in
    let monitor := set_monitor_status OFFLINE monitor in
    let '(monitor, w) := monitor_update_timestamp monitor w in
    (mkScheduler running (system_job_schedules s) jobs (next_job s), save_monitor monitor w)
  else (s, w).

Definition stop_all_monitors_in_space (s : Scheduler) (space : string) (w : World)
  : Scheduler * World :=
  fold_left (stop_in_space_step space) (sched_running s) (s, w).

Definition stop_all_step (acc : list (nat * Z) * World) (entry : Monitor * nat)
  : list (nat * Z) * World :=
  let '(jobs, w) := acc in
  let '(monitor, job) := entry in
  let jobs := cancel_job job jobs in
  let monitor := set_monitor_status OFFLINE monitor in
  let '(monitor, w) := monitor_update_timestamp monitor w in
  (jobs, save_monitor monitor w).

Definition stop_all_monitors (s : Scheduler) (w : World) : Scheduler * World :=
  let '(jobs, w) := fold_left stop_all_step (sched_running s) (schedule_jobs s, w) in
  (mkScheduler [] (system_job_schedules s) jobs (next_job s), w).

Definition schedule_step (acc : Scheduler * World) (monitor : Monitor) : Scheduler * World :=
  let '(s, w) := acc in
  let '(_, s, w) := schedule_monitor s monitor w in (s, w).

Definition start_all_monitors_in_space (s : Scheduler) (space : string) (w : World)
  : Scheduler * World :=
  let monitors_to_start := db_get_monitors_for_space space (w_db w) in
  let monitors_to_schedule :=
    filter (fun m => negb (is_monitor_running s (mid m))) monitors_to_start in
  fold_left schedule_step monitors_to_schedule (s, w).

(** [reschedule_monitor].  [running_monitors.pop] removes the entry,
    then [job.cancel()] raises: a [schedule.Job] has no [cancel]
    attribute (jobs are cancelled through [schedule.cancel_job], as in
    [stop_monitor]).  The exception leaves [with self.monitor_lock]
    after the pop, before the job is cancelled, the monitor saved or a
    new job created. *)
Definition reschedule_monitor (s : Scheduler) (monitor : Monitor) (w : World)
  : PyResult bool * Scheduler * World :=
  match find (fun p => String.eqb (mid (fst p)) (mid monitor)) (sched_running s) with
  | None => (Returned false, s, w)
  | Some (monitor_to_reschedule, job) =>
      let running := dict_pop monitor_to_reschedule (sched_running s) in
      (Raised (AttributeError "Job" "cancel"),
       mkScheduler running (system_job_schedules s) (schedule_jobs s) (next_job s), w)
  end.

End Scheduler.

(** Each monitor id runs at most once; [schedule]'s job list holds
    exactly one job per running monitor plus the system jobs, no job
    twice, and the next job number is fresh. *)
Definition sched_ok (s : Scheduler) : Prop :=
  NoDup (map (fun p => mid (fst p)) (sched_running s))
  /\ NoDup (map fst (schedule_jobs s))
  /\ NoDup (map snd (sched_running s) ++ map snd (system_job_schedules s))
  /\ (forall j, In j (map fst (schedule_jobs s)) <->
        In j (map snd (sched_running s) ++ map snd (system_job_schedules s)))
  /\ (forall j, In j (map fst (schedule_jobs s)) -> (j < next_job s)%nat).

Lemma mid_with_base (b : BaseMonitor) (m : Monitor) : mid (with_base b m) = mon_id b.
Proof. destruct m; reflexivity. Qed.

Lemma mid_set_monitor_status (st : MonitorStatus) (m : Monitor) :
  mid (set_monitor_status st m) = mid m.
Proof. destruct m; reflexivity. Qed.

Lemma update_timestamp_id (b : BaseMonitor) (c : Clock) :
  mon_id (fst (update_timestamp b c)) = mon_id b.
Proof.
  unfold update_timestamp, bind, now, ret. destruct (clock_ticks c); reflexivity.
Qed.

Lemma update_last_checked_at_id (b : BaseMonitor) (c : Clock) :
  mon_id (fst (update_last_checked_at b c)) = mon_id b.
Proof.
  unfold update_last_checked_at, bind at 1.
  destruct (now c) as [t c']. rewrite update_timestamp_id. reflexivity.
Qed.

Lemma update_last_healthy_at_id (b : BaseMonitor) (c : Clock) :
  mon_id (fst (update_last_healthy_at b c)) = mon_id b.
Proof.
  unfold update_last_healthy_at, bind at 1.
  destruct (now c) as [t c']. rewrite update_timestamp_id. reflexivity.
Qed.

Lemma run_monitor_id (m : Monitor) (pe : ProbeEnv) (c : Clock) :
  mid (fst (fst (_run_monitor m pe c))) = mid m.
Proof.
  unfold _run_monitor, bind at 1.
  set (b0 := set_status (r_status (run_check m pe)) (base_of m)).
  assert (H0 : mon_id b0 = mid m) by reflexivity.
  pose proof (update_last_checked_at_id b0 c) as H1.
  destruct (update_last_checked_at b0 c) as [b1 c1]. cbn in H1.
  unfold bind.
  destruct (MonitorStatus_eqb (r_status (run_check m pe)) HEALTHY).
  - pose proof (update_last_healthy_at_id b1 c1) as H2.
    destruct (update_last_healthy_at b1 c1) as [b2 c2]. cbn in H2 |- *.
    rewrite mid_with_base, H2, H1. reflexivity.
  - cbn. rewrite mid_with_base, H1. reflexivity.
Qed.

Lemma key_eqb_refl (k : Monitor) : key_eqb k k = true.
Proof. destruct k; cbn; apply String.eqb_refl. Qed.

Lemma key_eqb_mid (a b : Monitor) : key_eqb a b = true -> mid a = mid b.
Proof.
  destruct a, b; cbn; try discriminate; intro H; apply String.eqb_eq in H; exact H.
Qed.

Lemma dict_pop_entry (l : list (Monitor * nat)) (k : Monitor) (j : nat) :
  NoDup (map (fun p => mid (fst p)) l) -> In (k, j) l ->
  exists l1 l2, l = (l1 ++ (k, j) :: l2)%list /\ dict_pop k l = (l1 ++ l2)%list.
Proof.
  induction l as [|[k' v] l IH]; intros Hnd Hin; [destruct Hin|].
  cbn in Hnd. inversion Hnd as [|x y Hn Hnd' Heq]; subst.
  cbn. destruct (key_eqb k' k) eqn:E.
  - destruct Hin as [Heq|Hin].
    + injection Heq as -> ->. exists [], l. split; reflexivity.
    + exfalso. apply Hn. apply key_eqb_mid in E. rewrite E.
      apply (in_map (fun p => mid (fst p)) l (k, j)). exact Hin.
  - destruct Hin as [Heq|Hin].
    + injection Heq as -> ->. rewrite key_eqb_refl in E. discriminate.
    + destruct (IH Hnd' Hin) as (l1 & l2 & -> & ->).
      exists ((k', v) :: l1), l2. split; reflexivity.
Qed.

Lemma cancel_job_entry (jobs : list (nat * Z)) (job : nat) :
  NoDup (map fst jobs) -> In job (map fst jobs) ->
  exists j1 iv j2, jobs = (j1 ++ (job, iv) :: j2)%list
                   /\ cancel_job job jobs = (j1 ++ j2)%list.
Proof.
  induction jobs as [|[j iv] js IH]; intros Hnd Hin; [destruct Hin|].
  cbn in Hnd, Hin. inversion Hnd as [|x y Hn Hnd' Heq]; subst.
  cbn. destruct (Nat.eqb j job) eqn:E.
  - apply Nat.eqb_eq in E. subst j. exists [], iv, js. split; reflexivity.
  - destruct Hin as [Heq|Hin].
    + subst j. rewrite Nat.eqb_refl in E. discriminate.
    + destruct (IH Hnd' Hin) as (j1 & iv' & j2 & -> & ->).
      exists ((j, iv) :: j1), iv', j2. split; reflexivity.
Qed.

Lemma cancel_job_absent (jobs : list (nat * Z)) (job : nat) :
  ~ In job (map fst jobs) -> cancel_job job jobs = jobs.
Proof.
  induction jobs as [|[j iv] js IH]; intro Hn; [reflexivity|].
  cbn in Hn |- *. destruct (Nat.eqb j job) eqn:E.
  - apply Nat.eqb_eq in E. subst j. exfalso. apply Hn. left. reflexivity.
  - rewrite IH; [reflexivity|]. intro H. apply Hn. right. exact H.
Qed.

Lemma in_remove_nodup {A : Type} (l1 l2 : list A) (a x : A) :
  NoDup (l1 ++ a :: l2) ->
  (In x (l1 ++ l2) <-> In x (l1 ++ a :: l2) /\ x <> a).
Proof.
  intro Hnd. pose proof (NoDup_remove_2 _ _ _ Hnd) as Hn.
  rewrite !in_app_iff. cbn. split.
  - intro H. split.
    + destruct H; [left|right; right]; assumption.
    + intros ->. apply Hn. apply in_app_iff. exact H.
  - intros [[H|[H|H]] Hne]; [left; exact H| congruence| right; exact H].
Qed.

Lemma nodup_insert {A : Type} (l1 l2 : list A) (a : A) :
  NoDup (l1 ++ l2) -> ~ In a (l1 ++ l2) -> NoDup (l1 ++ a :: l2).
Proof.
  intros Hnd Hn. apply (proj2 (NoDup_Add (Add_app a l1 l2))). split; assumption.
Qed.

Lemma nodup_snoc {A : Type} (l : list A) (a : A) :
  NoDup l -> ~ In a l -> NoDup (l ++ [a]).
Proof.
  intros Hnd Hn. apply nodup_insert; rewrite app_nil_r; assumption.
Qed.

Lemma sched_ok_remove (s : Scheduler) (k : Monitor) (j : nat) :
  sched_ok s -> In (k, j) (sched_running s) ->
  sched_ok (mkScheduler (dict_pop k (sched_running s)) (system_job_schedules s)
              (cancel_job j (schedule_jobs s)) (next_job s)).
Proof.
  intros (Hid & Hjn & Hrn & Hiff & Hlt) Hin.
  assert (Hj : In j (map fst (schedule_jobs s))).
  { apply Hiff. apply in_app_iff. left. apply (in_map snd _ (k, j)). exact Hin. }
  destruct (dict_pop_entry _ _ _ Hid Hin) as (r1 & r2 & Er & Ep).
  destruct (cancel_job_entry _ _ Hjn Hj) as (j1 & iv & j2 & Ej & Ec).
  rewrite Er in Hid, Hrn, Hiff. rewrite Ej in Hjn, Hiff, Hlt.
  unfold sched_ok. cbn [sched_running system_job_schedules schedule_jobs next_job].
  rewrite Ep, Ec.
  repeat rewrite map_app in Hid, Hjn, Hrn. repeat rewrite map_app.
  cbn [map fst snd] in Hid, Hjn, Hrn |- *.
  rewrite <- !app_assoc in Hrn |- *. cbn [app] in Hrn.
  assert (Hrn' := NoDup_remove_1 _ _ _ Hrn).
  refine (conj (NoDup_remove_1 _ _ _ Hid)
            (conj (NoDup_remove_1 _ _ _ Hjn) (conj Hrn' (conj _ _)))).
  - intro x. specialize (Hiff x).
    repeat rewrite map_app in Hiff. rewrite <- !app_assoc in Hiff. cbn [map fst snd app] in Hiff.
    rewrite (in_remove_nodup _ _ _ x Hjn), (in_remove_nodup _ _ _ x Hrn).
    rewrite Hiff. tauto.
  - intros x Hx. apply Hlt. rewrite map_app. cbn [map fst].
    apply (in_remove_nodup _ _ _ x Hjn) in Hx. apply Hx.
Qed.

Lemma is_monitor_running_false (s : Scheduler) (id : string) :
  is_monitor_running s id = false ->
  ~ In id (map (fun p => mid (fst p)) (sched_running s)).
Proof.
  unfold is_monitor_running. intros H Hin.
  apply in_map_iff in Hin. destruct Hin as (p & Hp & Hin).
  assert (existsb (fun p => String.eqb (mid (fst p)) id) (sched_running s) = true)
    as Ht.
  { apply existsb_exists. exists p. split; [exact Hin|]. apply String.eqb_eq. exact Hp. }
  congruence.
Qed.

Lemma is_monitor_running_iff (s : Scheduler) (id : string) :
  is_monitor_running s id = true <-> In id (map (fun p => mid (fst p)) (sched_running s)).
Proof.
  unfold is_monitor_running. rewrite existsb_exists, in_map_iff. split.
  - intros (p & Hin & Hp). exists p. split; [apply String.eqb_eq; exact Hp|exact Hin].
  - intros (p & Hp & Hin). exists p. split; [exact Hin|apply String.eqb_eq; exact Hp].
Qed.

Lemma sched_ok_add (s : Scheduler) (m : Monitor) (iv : Z) :
  sched_ok s -> ~ In (mid m) (map (fun p => mid (fst p)) (sched_running s)) ->
  sched_ok (mkScheduler (sched_running s ++ [(m, next_job s)])%list
              (system_job_schedules s)
              (schedule_jobs s ++ [(next_job s, iv)])%list (S (next_job s))).
Proof.
  intros (Hid & Hjn & Hrn & Hiff & Hlt) Hm.
  assert (Hfresh : ~ In (next_job s) (map fst (schedule_jobs s))).
  { intro H. apply Hlt in H. lia. }
  unfold sched_ok. cbn [sched_running system_job_schedules schedule_jobs next_job].
  rewrite !map_app. cbn [map fst snd].
  refine (conj _ (conj _ (conj _ (conj _ _)))).
  - apply nodup_snoc; assumption.
  - apply nodup_snoc; assumption.
  - rewrite <- app_assoc. cbn [app]. apply nodup_insert; [exact Hrn|].
    rewrite <- Hiff. exact Hfresh.
  - intro x. rewrite <- app_assoc. cbn [app].
    rewrite !in_app_iff. cbn. specialize (Hiff x). rewrite in_app_iff in Hiff. tauto.
  - intros x Hx. apply in_app_iff in Hx. destruct Hx as [Hx|[<-|[]]].
    + apply Hlt in Hx. lia.
    + lia.
Qed.

Definition not_id (id : string) (p : Monitor * nat) : bool :=
  negb (String.eqb (mid (fst p)) id).

Lemma filter_not_id (l : list (Monitor * nat)) (id : string) :
  ~ In id (map (fun p => mid (fst p)) l) -> filter (not_id id) l = l.
Proof.
  induction l as [|p l IH]; intro Hn; [reflexivity|].
  cbn in Hn |- *. unfold not_id at 1.
  destruct (String.eqb (mid (fst p)) id) eqn:E.
  - apply String.eqb_eq in E. exfalso. apply Hn. left. exact E.
  - cbn. rewrite IH; [reflexivity|]. intro H. apply Hn. right. exact H.
Qed.

Lemma dict_pop_filter (l : list (Monitor * nat)) (k : Monitor) (j : nat) :
  NoDup (map (fun p => mid (fst p)) l) -> In (k, j) l ->
  dict_pop k l = filter (not_id (mid k)) l.
Proof.
  intros Hnd Hin.
  destruct (dict_pop_entry _ _ _ Hnd Hin) as (l1 & l2 & El & ->).
  rewrite El in Hnd |- *. rewrite map_app in Hnd. cbn [map fst] in Hnd.
  pose proof (NoDup_remove_2 _ _ _ Hnd) as Hn. rewrite <- map_app in Hn.
  rewrite filter_app. cbn [filter]. unfold not_id at 2. cbn [fst].
  rewrite String.eqb_refl. cbn [negb].
  rewrite <- filter_app. symmetry. apply filter_not_id. exact Hn.
Qed.

Lemma dict_pop_at (l1 l2 : list (Monitor * nat)) (k : Monitor) (j : nat) :
  NoDup (map (fun p => mid (fst p)) (l1 ++ (k, j) :: l2)) ->
  dict_pop k (l1 ++ (k, j) :: l2) = (l1 ++ l2)%list.
Proof.
  induction l1 as [|[k' v] l1 IH]; intro Hnd.
  - cbn. rewrite key_eqb_refl. reflexivity.
  - cbn in Hnd |- *. inversion Hnd as [|x y Hn Hnd' Heq]; subst.
    destruct (key_eqb k' k) eqn:E.
    + exfalso. apply key_eqb_mid in E. apply Hn. rewrite E, map_app, in_app_iff.
      right. left. reflexivity.
    + rewrite IH by exact Hnd'. reflexivity.
Qed.

Lemma find_running_some (l : list (Monitor * nat)) (id : string) (k : Monitor) (j : nat) :
  find (fun p => String.eqb (mid (fst p)) id) l = Some (k, j) -> In (k, j) l /\ mid k = id.
Proof.
  intro H. apply find_some in H. destruct H as [Hin He].
  apply String.eqb_eq in He. split; assumption.
Qed.

Lemma find_running_none (s : Scheduler) (id : string) :
  find (fun p => String.eqb (mid (fst p)) id) (sched_running s) = None ->
  is_monitor_running s id = false.
Proof.
  unfold is_monitor_running. generalize (sched_running s) as l.
  induction l as [|p l IH]; intro H; [reflexivity|].
  cbn in H |- *. destruct (String.eqb (mid (fst p)) id); [discriminate|].
  apply IH. exact H.
Qed.

Lemma is_monitor_running_filter (l : list (Monitor * nat)) (sys : list (string * nat))
    (jobs : list (nat * Z)) (n : nat) (id : string) :
  is_monitor_running (mkScheduler (filter (not_id id) l) sys jobs n) id = false.
Proof.
  unfold is_monitor_running. cbn [sched_running].
  induction l as [|p l IH]; [reflexivity|].
  cbn. unfold not_id at 1. destruct (String.eqb (mid (fst p)) id) eqn:E.
  - exact IH.
  - cbn. rewrite E. exact IH.
Qed.

(** The entries [stop_all_monitors_in_space] leaves: those of another
    space. *)
Definition not_in_space (space : string) (p : Monitor * nat) : bool :=
  negb (String.eqb (space_id (base_of (fst p))) space).

Lemma cancel_all_jobs (E : list (Monitor * nat)) (jobs : list (nat * Z)) (X : list nat) :
  NoDup (map fst jobs) -> NoDup (map snd E ++ X) ->
  (forall j, In j (map fst jobs) <-> In j (map snd E ++ X)) ->
  NoDup (map fst (fold_left (fun js e => cancel_job (snd e) js) E jobs))
  /\ (forall j, In j (map fst (fold_left (fun js e => cancel_job (snd e) js) E jobs)) <-> In j X).
Proof.
  revert jobs. induction E as [|[k j] E IH]; intros jobs Hjn Hnd Hiff; [split; assumption|].
  cbn [fold_left snd map app] in Hnd, Hiff |- *.
  assert (Hj : In j (map fst jobs)) by (apply Hiff; left; reflexivity).
  destruct (cancel_job_entry _ _ Hjn Hj) as (j1 & iv & j2 & Ej & ->).
  rewrite Ej, map_app in Hjn, Hiff. cbn [map fst] in Hjn, Hiff.
  inversion Hnd as [|x y Hn Hnd' Heq]; subst.
  apply IH; [rewrite map_app; exact (NoDup_remove_1 _ _ _ Hjn)|exact Hnd'|].
  intro x. rewrite map_app, (in_remove_nodup _ _ _ x Hjn), Hiff. cbn.
  split; [intros [[H|H] Hne]; [congruence|exact H]|].
  intro H. split; [right; exact H|]. intros ->. exact (Hn H).
Qed.

Section SchedulerProofs.

Variable D : Type.
Variable db_save_monitor : Monitor -> D -> D.
Variable db_save_result : MonitorResult -> D -> D.
Variable db_get_monitor : string -> D -> option Monitor.
Variable db_get_monitors_for_space : string -> D -> list Monitor.
Variable db_latest_result : string -> D -> option MonitorResult.
Variable notify : Monitor -> MonitorResult -> D -> D.
Variable probe : Monitor -> Clock -> ProbeEnv.

Lemma monitor_update_timestamp_id (m : Monitor) (w : World D) :
  mid (fst (monitor_update_timestamp D m w)) = mid m.
Proof.
  unfold monitor_update_timestamp.
  pose proof (update_timestamp_id (base_of m) (w_clock D w)) as H.
  destruct (update_timestamp (base_of m) (w_clock D w)) as [b c]. cbn in H |- *.
  rewrite mid_with_base. exact H.
Qed.

Lemma run_monitor_job_id (m : Monitor) (w : World D) :
  mid (fst (run_monitor_job D db_save_monitor db_save_result db_latest_result notify probe m w))
  = mid m.
Proof.
  unfold run_monitor_job.
  pose proof (run_monitor_id m (probe m (w_clock D w)) (w_clock D w)) as H.
  destruct (_run_monitor m (probe m (w_clock D w)) (w_clock D w)) as [[m' r] c].
  exact H.
Qed.

Local Abbreviation sched_monitor :=
  (schedule_monitor D db_save_monitor db_save_result db_latest_result notify probe).
Local Abbreviation resched_monitor := (reschedule_monitor D).
Local Abbreviation stop_mon := (stop_monitor D db_save_monitor db_get_monitor).
Local Abbreviation stop_space := (stop_all_monitors_in_space D db_save_monitor).
Local Abbreviation stop_all := (stop_all_monitors D db_save_monitor).
Local Abbreviation start_space :=
  (start_all_monitors_in_space D db_save_monitor db_save_result
     db_get_monitors_for_space db_latest_result notify probe).

Lemma schedule_monitor_core (s : Scheduler) (m : Monitor) (w : World D) :
  let '(b, s', w') := sched_monitor s m w in
  b = negb (is_monitor_running s (mid m))
  /\ (b = false -> s' = s /\ w' = w)
  /\ (b = true -> exists m', mid m' = mid m
        /\ s' = mkScheduler (sched_running s ++ [(m', next_job s)])%list
                  (system_job_schedules s)
                  (schedule_jobs s ++ [(next_job s, check_interval_seconds (base_of m))])%list
                  (S (next_job s))).
Proof.
  unfold schedule_monitor. destruct (is_monitor_running s (mid m)) eqn:E.
  - refine (conj eq_refl (conj (fun _ => conj eq_refl eq_refl) _)). discriminate.
  - pose proof (monitor_update_timestamp_id (set_monitor_status UNKNOWN m) w) as H1.
    destruct (monitor_update_timestamp D (set_monitor_status UNKNOWN m) w) as [m1 w1].
    pose proof (run_monitor_job_id m1 (save_monitor D db_save_monitor m1 w1)) as H2.
    destruct (run_monitor_job D db_save_monitor db_save_result db_latest_result notify probe
                m1 (save_monitor D db_save_monitor m1 w1)) as [m2 w2].
    refine (conj eq_refl (conj _ _)); [discriminate|]. intros _.
    exists m2. split; [|reflexivity].
    cbn in H1, H2. rewrite H2, H1. apply mid_set_monitor_status.
Qed.

Lemma is_monitor_running_incl (s s' : Scheduler) (id : string) :
  (forall e, In e (sched_running s) -> In e (sched_running s')) ->
  is_monitor_running s id = true -> is_monitor_running s' id = true.
Proof.
  rewrite !is_monitor_running_iff. intros Hinc H.
  apply in_map_iff in H. destruct H as (e & He & Hin).
  apply in_map_iff. exists e. split; [exact He|]. apply Hinc. exact Hin.
Qed.

Lemma schedule_monitor_step (s : Scheduler) (m : Monitor) (w : World D) :
  let '(b, s', w') := sched_monitor s m w in
  (forall e, In e (sched_running s) -> In e (sched_running s'))
  /\ is_monitor_running s' (mid m) = true
  /\ (sched_ok s -> sched_ok s').
Proof.
  pose proof (schedule_monitor_core s m w) as H.
  destruct (sched_monitor s m w) as [[b s'] w'].
  destruct H as (Hb & Hf & Ht). destruct b.
  - destruct (Ht eq_refl) as (m' & Hm' & ->). cbn [sched_running].
    refine (conj _ (conj _ _)).
    + intros e He. apply in_app_iff. left. exact He.
    + apply is_monitor_running_iff. cbn [sched_running].
      rewrite map_app, in_app_iff. right. left. exact Hm'.
    + intro Hok. apply sched_ok_add; [exact Hok|].
      rewrite Hm'. apply is_monitor_running_false.
      destruct (is_monitor_running s (mid m)); [discriminate|reflexivity].
  - destruct (Hf eq_refl) as [-> ->].
    refine (conj (fun e He => He) (conj _ (fun H => H))).
    destruct (is_monitor_running s (mid m)); [reflexivity|discriminate].
Qed.

Lemma stop_in_space_fold (sid : string) (R P : list (Monitor * nat))
    (s : Scheduler) (w : World D) :
  sched_ok s ->
  sched_running s = (filter (not_in_space sid) P ++ R)%list ->
  sched_ok (fst (fold_left (stop_in_space_step D db_save_monitor sid) R (s, w)))
  /\ sched_running (fst (fold_left (stop_in_space_step D db_save_monitor sid) R (s, w)))
     = filter (not_in_space sid) (P ++ R).
Proof.
  revert P s w. induction R as [|[k j] R IH]; intros P s w Hok Hr.
  - cbn. rewrite app_nil_r in Hr |- *. split; assumption.
  - cbn [fold_left stop_in_space_step].
    assert (Hin : In (k, j) (sched_running s)).
    { rewrite Hr. apply in_app_iff. right. left. reflexivity. }
    replace (P ++ (k, j) :: R)%list with ((P ++ [(k, j)]) ++ R)%list
      by (rewrite <- app_assoc; reflexivity).
    destruct (String.eqb (space_id (base_of k)) sid) eqn:E.
    + destruct (monitor_update_timestamp D (set_monitor_status OFFLINE k) w) as [m1 w1].
      apply IH.
      * apply sched_ok_remove; assumption.
      * cbn [sched_running]. destruct Hok as [Hid _]. rewrite Hr in Hid |- *.
        rewrite dict_pop_at by exact Hid.
        rewrite filter_app. cbn [filter].
        replace (not_in_space sid (k, j)) with false
          by (unfold not_in_space; cbn [fst]; rewrite E; reflexivity).
        rewrite app_nil_r. reflexivity.
    + apply IH; [exact Hok|].
      rewrite Hr, filter_app. cbn [filter].
      replace (not_in_space sid (k, j)) with true
        by (unfold not_in_space; cbn [fst]; rewrite E; reflexivity).
      rewrite <- app_assoc. reflexivity.
Qed.

Lemma stop_all_fold_jobs (E : list (Monitor * nat)) (jobs : list (nat * Z)) (w : World D) :
  fst (fold_left (stop_all_step D db_save_monitor) E (jobs, w))
  = fold_left (fun js e => cancel_job (snd e) js) E jobs.
Proof.
  revert jobs w. induction E as [|[k j] E IH]; intros jobs w; [reflexivity|].
  cbn [fold_left stop_all_step].
  destruct (monitor_update_timestamp D (set_monitor_status OFFLINE k) w) as [m1 w1].
  apply IH.
Qed.

(** [schedule_monitor] on a scheduler in a consistent state: it returns
    [True] exactly when no monitor with the same id was running; then the
    monitor (as its first run leaves it) is appended to the running
    monitors with a fresh job at its [check_interval_seconds]; otherwise
    nothing changes.  Afterwards the monitor runs and the state is still
    consistent. *)
Theorem schedule_monitor_spec (s : Scheduler) (m : Monitor) (w : World D) :
  sched_ok s ->
  let '(b, s', w') := sched_monitor s m w in
  b = negb (is_monitor_running s (mid m))
  /\ is_monitor_running s' (mid m) = true
  /\ sched_ok s'
  /\ (b = false -> s' = s /\ w' = w)
  /\ (b = true -> exists m', mid m' = mid m
        /\ sched_running s' = (sched_running s ++ [(m', next_job s)])%list
        /\ schedule_jobs s'
           = (schedule_jobs s ++ [(next_job s, check_interval_seconds (base_of m))])%list).
Proof.
  intro Hok.
  pose proof (schedule_monitor_core s m w) as Hc.
  pose proof (schedule_monitor_step s m w) as Hs.
  destruct (sched_monitor s m w) as [[b s'] w'].
  destruct Hc as (Hb & Hf & Ht). destruct Hs as (_ & Hr & Hk).
  refine (conj Hb (conj Hr (conj (Hk Hok) (conj Hf _)))).
  intro Htrue. destruct (Ht Htrue) as (m' & Hm' & ->).
  exists m'. split; [exact Hm'|]. split; reflexivity.
Qed.

(** [stop_monitor] on a consistent scheduler returns whether a monitor
    with that id was running, drops exactly the entry with that id, and
    afterwards no monitor with that id runs; the state stays
    consistent (its job cancelled). *)
Theorem stop_monitor_spec (s : Scheduler) (id : string) (w : World D) :
  sched_ok s ->
  let '(b, s', w') := stop_mon s id w in
  b = is_monitor_running s id
  /\ sched_running s' = filter (not_id id) (sched_running s)
  /\ is_monitor_running s' id = false
  /\ sched_ok s'.
Proof.
  intro Hok. unfold stop_monitor.
  destruct (find (fun p => String.eqb (mid (fst p)) id) (sched_running s))
    as [[k j]|] eqn:F.
  - apply find_running_some in F. destruct F as [Hin Hk].
    destruct (match db_get_monitor id (w_db D w) with
              | Some monitor =>
                  let monitor := set_monitor_status OFFLINE monitor in
                  let '(monitor, w) := monitor_update_timestamp D monitor w in
                  save_monitor D db_save_monitor monitor w
              | None => w
              end).
    assert (Hp : dict_pop k (sched_running s) = filter (not_id id) (sched_running s)).
    { rewrite <- Hk. apply (dict_pop_filter _ _ j); [apply Hok|exact Hin]. }
    refine (conj _ (conj Hp (conj _ _))).
    + symmetry. apply is_monitor_running_iff. rewrite <- Hk.
      apply (in_map (fun p => mid (fst p)) _ (k, j)). exact Hin.
    + rewrite Hp. apply is_monitor_running_filter.
    + apply sched_ok_remove; assumption.
  - pose proof (find_running_none s id F) as Hn.
    refine (conj (eq_sym Hn) (conj _ (conj Hn Hok))).
    symmetry. apply filter_not_id. apply is_monitor_running_false. exact Hn.
Qed.

(** [reschedule_monitor] on a consistent scheduler returns [False] and
    changes nothing when no monitor with that id is running.  When one
    is, the call raises [AttributeError] (no [Job.cancel]) after the
    entry has been popped: the id is no longer running, yet its job stays
    in [schedule]'s job list with no entry pointing to it, so the state
    is no longer consistent; the database and the clock are untouched. *)
Theorem reschedule_monitor_spec (s : Scheduler) (m : Monitor) (w : World D) :
  sched_ok s ->
  let '(r, s', w') := resched_monitor s m w in
  w' = w
  /\ (is_monitor_running s (mid m) = false -> r = Returned false /\ s' = s)
  /\ (is_monitor_running s (mid m) = true ->
        r = Raised (AttributeError "Job" "cancel")
        /\ sched_running s' = filter (not_id (mid m)) (sched_running s)
        /\ is_monitor_running s' (mid m) = false
        /\ schedule_jobs s' = schedule_jobs s
        /\ (exists j0, In j0 (map fst (schedule_jobs s'))
              /\ ~ In j0 (map snd (sched_running s') ++ map snd (system_job_schedules s')))
        /\ ~ sched_ok s').
Proof.
  intro Hok. unfold reschedule_monitor.
  destruct (find (fun p => String.eqb (mid (fst p)) (mid m)) (sched_running s))
    as [[k j]|] eqn:F.
  - apply find_running_some in F. destruct F as [Hin Hk].
    assert (Hrun : is_monitor_running s (mid m) = true).
    { apply is_monitor_running_iff. rewrite <- Hk.
      apply (in_map (fun p => mid (fst p)) _ (k, j)). exact Hin. }
    assert (Hp : dict_pop k (sched_running s) = filter (not_id (mid m)) (sched_running s)).
    { rewrite <- Hk. apply (dict_pop_filter _ _ j); [apply Hok|exact Hin]. }
    destruct Hok as (Hnd & _ & Hjn & Hiff & _).
    destruct (dict_pop_entry _ _ _ Hnd Hin) as (l1 & l2 & El & Ep).
    assert (Hj : In j (map fst (schedule_jobs s))).
    { apply Hiff, in_app_iff. left. apply (in_map snd _ (k, j)). exact Hin. }
    assert (Hnj : ~ In j (map snd (dict_pop k (sched_running s))
                          ++ map snd (system_job_schedules s))).
    { rewrite Ep. rewrite El, map_app in Hjn. cbn [map snd] in Hjn.
      rewrite <- app_assoc in Hjn. cbn [app] in Hjn.
      rewrite map_app, <- app_assoc. exact (NoDup_remove_2 _ _ _ Hjn). }
    refine (conj eq_refl (conj _ (fun _ => _))).
    + rewrite Hrun. discriminate.
    + cbn [sched_running schedule_jobs system_job_schedules].
      refine (conj eq_refl (conj Hp (conj _ (conj eq_refl (conj _ _))))).
      * rewrite Hp. apply is_monitor_running_filter.
      * exists j. exact (conj Hj Hnj).
      * intros (_ & _ & _ & Hiff' & _). cbn in Hiff'. exact (Hnj (proj1 (Hiff' j) Hj)).
  - pose proof (find_running_none s (mid m) F) as Hn.
    refine (conj eq_refl (conj (fun _ => conj eq_refl eq_refl) _)).
    rewrite Hn. discriminate.
Qed.

(** [stop_all_monitors_in_space] on a consistent scheduler keeps, in
    order, exactly the running monitors of other spaces; none of the
    space is left running, and the state stays consistent. *)
Theorem stop_all_monitors_in_space_spec (s : Scheduler) (sid : string) (w : World D) :
  sched_ok s ->
  let '(s', w') := stop_space s sid w in
  sched_running s' = filter (not_in_space sid) (sched_running s)
  /\ (forall p, In p (sched_running s') -> space_id (base_of (fst p)) <> sid)
  /\ sched_ok s'.
Proof.
  intro Hok. unfold stop_all_monitors_in_space.
  pose proof (stop_in_space_fold sid (sched_running s) [] s w Hok eq_refl) as [Hk Hr].
  destruct (fold_left (stop_in_space_step D db_save_monitor sid) (sched_running s) (s, w))
    as [s' w'].
  cbn [fst app] in Hk, Hr.
  refine (conj Hr (conj _ Hk)).
  intros p Hp Heq. rewrite Hr in Hp. apply filter_In in Hp. destruct Hp as [_ Hp].
  unfold not_in_space in Hp. rewrite Heq, String.eqb_refl in Hp. discriminate.
Qed.

(** [stop_all_monitors] on a consistent scheduler leaves no monitor
    running and only the system jobs scheduled. *)
Theorem stop_all_monitors_spec (s : Scheduler) (w : World D) :
  sched_ok s ->
  let '(s', w') := stop_all s w in
  sched_running s' = []
  /\ system_job_schedules s' = system_job_schedules s
  /\ (forall j, In j (map fst (schedule_jobs s')) <-> In j (map snd (system_job_schedules s)))
  /\ sched_ok s'.
Proof.
  intros (Hid & Hjn & Hrn & Hiff & Hlt). unfold stop_all_monitors.
  pose proof (stop_all_fold_jobs (sched_running s) (schedule_jobs s) w) as Hf.
  pose proof (cancel_all_jobs (sched_running s) (schedule_jobs s)
                (map snd (system_job_schedules s)) Hjn Hrn Hiff) as [Hn Hi].
  destruct (fold_left (stop_all_step D db_save_monitor) (sched_running s) (schedule_jobs s, w))
    as [jobs w'].
  cbn [fst] in Hf. rewrite <- Hf in Hn, Hi.
  refine (conj eq_refl (conj eq_refl (conj Hi _))).
  unfold sched_ok. cbn [sched_running system_job_schedules schedule_jobs next_job map app].
  refine (conj (NoDup_nil _) (conj Hn (conj _ (conj Hi _)))).
  - exact (NoDup_app_remove_l _ _ Hrn).
  - intros j Hj. apply Hlt, Hiff, in_app_iff. right. apply Hi. exact Hj.
Qed.

(** [start_all_monitors_in_space]: afterwards every monitor the database
    lists for the space runs, the monitors that ran before still run
    with the same job, and a consistent state stays consistent. *)
Theorem start_all_monitors_in_space_spec (s : Scheduler) (sid : string) (w : World D) :
  sched_ok s ->
  let '(s', w') := start_space s sid w in
  (forall m, In m (db_get_monitors_for_space sid (w_db D w)) ->
     is_monitor_running s' (mid m) = true)
  /\ (forall e, In e (sched_running s) -> In e (sched_running s'))
  /\ sched_ok s'.
Proof.
  intro Hok. unfold start_all_monitors_in_space.
  set (L := db_get_monitors_for_space sid (w_db D w)).
  assert (Hfold : forall (l : list Monitor) (s0 : Scheduler) (w0 : World D),
    let '(s', w') := fold_left (schedule_step D db_save_monitor db_save_result
                                  db_latest_result notify probe) l (s0, w0) in
    (forall m, In m l -> is_monitor_running s' (mid m) = true)
    /\ (forall e, In e (sched_running s0) -> In e (sched_running s'))
    /\ (sched_ok s0 -> sched_ok s')).
  { induction l as [|m l IH]; intros s0 w0.
    - cbn. refine (conj _ (conj (fun _ H => H) (fun H => H))). intros _ [].
    - cbn [fold_left schedule_step].
      pose proof (schedule_monitor_step s0 m w0) as Hs.
      destruct (sched_monitor s0 m w0) as [[b s1] w1].
      destruct Hs as (Hinc1 & Hr1 & Hk1).
      specialize (IH s1 w1).
      destruct (fold_left (schedule_step D db_save_monitor db_save_result db_latest_result
                             notify probe) l (s1, w1)) as [s' w'].
      destruct IH as (Hall & Hinc & Hk).
      refine (conj _ (conj (fun e He => Hinc e (Hinc1 e He)) (fun H => Hk (Hk1 H)))).
      intros m' [Heq|Hm]; [subst m'|exact (Hall m' Hm)].
      exact (is_monitor_running_incl s1 s' (mid m) Hinc Hr1). }
  specialize (Hfold (filter (fun m => negb (is_monitor_running s (mid m))) L) s w).
  destruct (fold_left (schedule_step D db_save_monitor db_save_result db_latest_result
                         notify probe)
              (filter (fun m => negb (is_monitor_running s (mid m))) L) (s, w)) as [s' w'].
  destruct Hfold as (Hall & Hinc & Hk).
  refine (conj _ (conj Hinc (Hk Hok))).
  intros m Hm. destruct (is_monitor_running s (mid m)) eqn:E.
  - exact (is_monitor_running_incl s s' (mid m) Hinc E).
  - apply Hall. apply filter_In. rewrite E. split; [exact Hm|reflexivity].
Qed.

End SchedulerProofs.

(** A decision procedure for [sched_ok] on concrete schedulers. *)
Fixpoint nodupb {A : Type} (eqb : A -> A -> bool) (l : list A) : bool :=
  match l with
  | [] => true
  | x :: l' => negb (existsb (eqb x) l') && nodupb eqb l'
  end.

Lemma nodupb_sound {A : Type} (eqb : A -> A -> bool) (l : list A) :
  (forall x y, eqb x y = true <-> x = y) -> nodupb eqb l = true -> NoDup l.
Proof.
  intros Heq. induction l as [|x l IH]; intro H; [constructor|].
  cbn in H. apply andb_true_iff in H. destruct H as [Hn H].
  constructor; [|exact (IH H)].
  intro Hin. apply negb_true_iff in Hn.
  assert (existsb (eqb x) l = true) as Ht.
  { apply existsb_exists. exists x. split; [exact Hin|]. apply Heq. reflexivity. }
  congruence.
Qed.

Definition sched_okb (s : Scheduler) : bool :=
  let ids := map (fun p => mid (fst p)) (sched_running s) in
  let jobs := map fst (schedule_jobs s) in
  let owned := (map snd (sched_running s) ++ map snd (system_job_schedules s))%list in
  nodupb String.eqb ids && nodupb Nat.eqb jobs && nodupb Nat.eqb owned
  && forallb (fun j => existsb (Nat.eqb j) owned) jobs
  && forallb (fun j => existsb (Nat.eqb j) jobs) owned
  && forallb (fun j => Nat.ltb j (next_job s)) jobs.

Lemma existsb_nat_In (j : nat) (l : list nat) : existsb (Nat.eqb j) l = true <-> In j l.
Proof.
  rewrite existsb_exists. split.
  - intros (x & Hx & He). apply Nat.eqb_eq in He. subst. exact Hx.
  - intro H. exists j. split; [exact H|apply Nat.eqb_refl].
Qed.

Lemma sched_okb_sound (s : Scheduler) : sched_okb s = true -> sched_ok s.
Proof.
  unfold sched_okb. intro H. repeat rewrite andb_true_iff in H.
  destruct H as [[[[[H1 H2] H3] H4] H5] H6].
  refine (conj (nodupb_sound _ _ (fun x y => String.eqb_eq x y) H1)
            (conj (nodupb_sound _ _ (fun x y => Nat.eqb_eq x y) H2)
               (conj (nodupb_sound _ _ (fun x y => Nat.eqb_eq x y) H3) (conj _ _)))).
  - intro j. rewrite forallb_forall in H4, H5. split; intro Hj.
    + apply existsb_nat_In. exact (H4 j Hj).
    + apply existsb_nat_In. exact (H5 j Hj).
  - intros j Hj. rewrite forallb_forall in H6. apply Nat.ltb_lt. exact (H6 j Hj).
Qed.

(** A database of monitors for the examples: [save_monitor] stores the
    object, [get_monitor] and [get_monitors_for_space] read it back. *)
Definition toy_save_monitor (m : Monitor) (d : list Monitor) : list Monitor :=
  m :: filter (fun m' => negb (String.eqb (mid m') (mid m))) d.
Definition toy_save_result (r : MonitorResult) (d : list Monitor) : list Monitor := d.
Definition toy_get_monitor (id : string) (d : list Monitor) : option Monitor :=
  find (fun m => String.eqb (mid m) id) d.
Definition toy_monitors_for_space (sid : string) (d : list Monitor) : list Monitor :=
  filter (fun m => String.eqb (space_id (base_of m)) sid) d.
Definition toy_latest_result (id : string) (d : list Monitor) : option MonitorResult := None.
Definition toy_notify (m : Monitor) (r : MonitorResult) (d : list Monitor) : list Monitor := d.
Definition toy_probe (m : Monitor) (c : Clock) : ProbeEnv := stub_ok.

(** The state [_initialize_system_jobs] leaves with both system jobs
    enabled: health alerts hourly, data cleanup daily. *)
Definition initial_scheduler : Scheduler :=
  mkScheduler [] [("health_alert", 0%nat); ("data_cleanup", 1%nat)]
    [(0%nat, 3600); (1%nat, 86400)] 2.

Definition sched_clock : Clock := mkClock 0 (repeat 1%N 40).

Definition toy_world : World (list Monitor) :=
  mkWorld (list Monitor) sched_clock [MDb pg_monitor; MUrl web_monitor].

(** Both monitors of space [S1] started. *)
Definition two_running : Scheduler :=
  fst (start_all_monitors_in_space (list Monitor) toy_save_monitor toy_save_result
         toy_monitors_for_space toy_latest_result toy_notify toy_probe
         initial_scheduler "S1" toy_world).

Lemma schedule_monitor_spec_witness :
  sched_ok initial_scheduler
  /\ (let '(b, s', _) :=
        schedule_monitor (list Monitor) toy_save_monitor toy_save_result toy_latest_result
          toy_notify toy_probe initial_scheduler (MDb pg_monitor) toy_world in
      b = true /\ is_monitor_running s' "m-pg" = true /\ sched_ok s').
Proof.
  assert (Hok : sched_ok initial_scheduler)
    by (apply sched_okb_sound; vm_compute; reflexivity).
  split; [exact Hok|].
  pose proof (schedule_monitor_spec (list Monitor) toy_save_monitor toy_save_result
                toy_latest_result toy_notify toy_probe initial_scheduler (MDb pg_monitor)
                toy_world Hok) as H.
  destruct (schedule_monitor (list Monitor) toy_save_monitor toy_save_result toy_latest_result
              toy_notify toy_probe initial_scheduler (MDb pg_monitor) toy_world)
    as [[b s'] w'].
  destruct H as (Hb & Hr & Hk & _). split; [|split; assumption].
  rewrite Hb. vm_compute. reflexivity.
Defined.

Lemma stop_monitor_spec_witness :
  sched_ok two_running
  /\ (let '(b, s', _) :=
        stop_monitor (list Monitor) toy_save_monitor toy_get_monitor two_running "m-pg"
          toy_world in
      b = true /\ is_monitor_running s' "m-pg" = false
      /\ is_monitor_running s' "m-web" = true).
Proof.
  assert (Hok : sched_ok two_running)
    by (apply sched_okb_sound; vm_compute; reflexivity).
  split; [exact Hok|].
  pose proof (stop_monitor_spec (list Monitor) toy_save_monitor toy_get_monitor two_running
                "m-pg" toy_world Hok) as H.
  destruct (stop_monitor (list Monitor) toy_save_monitor toy_get_monitor two_running "m-pg"
              toy_world) as [[b s'] w'].
  destruct H as (Hb & Hr & Hn & _).
  refine (conj _ (conj Hn _)).
  - rewrite Hb. vm_compute. reflexivity.
  - unfold is_monitor_running. rewrite Hr. vm_compute. reflexivity.
Defined.

Lemma reschedule_monitor_spec_witness :
  sched_ok two_running
  /\ (let '(r, s', _) :=
        reschedule_monitor (list Monitor) two_running (MDb pg_monitor) toy_world in
      r = Raised (AttributeError "Job" "cancel") /\ ~ sched_ok s').
Proof.
  assert (Hok : sched_ok two_running)
    by (apply sched_okb_sound; vm_compute; reflexivity).
  split; [exact Hok|].
  pose proof (reschedule_monitor_spec (list Monitor) two_running (MDb pg_monitor)
                toy_world Hok) as H.
  destruct (reschedule_monitor (list Monitor) two_running (MDb pg_monitor) toy_world)
    as [[r s'] w'].
  destruct H as (_ & _ & Ht).
  assert (Hr : is_monitor_running two_running (mid (MDb pg_monitor)) = true)
    by (vm_compute; reflexivity).
  destruct (Ht Hr) as (Hr' & _ & _ & _ & _ & Hn). exact (conj Hr' Hn).
Defined.

Lemma stop_all_monitors_in_space_spec_witness :
  sched_ok two_running
  /\ (let '(s', _) :=
        stop_all_monitors_in_space (list Monitor) toy_save_monitor two_running "S1" toy_world in
      sched_running s' = [] /\ sched_ok s').
Proof.
  assert (Hok : sched_ok two_running)
    by (apply sched_okb_sound; vm_compute; reflexivity).
  split; [exact Hok|].
  pose proof (stop_all_monitors_in_space_spec (list Monitor) toy_save_monitor two_running "S1"
                toy_world Hok) as H.
  destruct (stop_all_monitors_in_space (list Monitor) toy_save_monitor two_running "S1"
              toy_world) as [s' w'].
  destruct H as (Hr & _ & Hk). split; [|exact Hk].
  rewrite Hr. vm_compute. reflexivity.
Defined.

Lemma stop_all_monitors_spec_witness :
  sched_ok two_running
  /\ (let '(s', _) := stop_all_monitors (list Monitor) toy_save_monitor two_running toy_world in
      sched_running s' = [] /\ (forall j, In j (map fst (schedule_jobs s')) <-> In j [0; 1]%nat)).
Proof.
  assert (Hok : sched_ok two_running)
    by (apply sched_okb_sound; vm_compute; reflexivity).
  split; [exact Hok|].
  pose proof (stop_all_monitors_spec (list Monitor) toy_save_monitor two_running toy_world Hok)
    as H.
  destruct (stop_all_monitors (list Monitor) toy_save_monitor two_running toy_world)
    as [s' w'].
  destruct H as (Hr & _ & Hi & _). exact (conj Hr Hi).
Defined.

Lemma start_all_monitors_in_space_spec_witness :
  sched_ok initial_scheduler
  /\ (let '(s', _) :=
        start_all_monitors_in_space (list Monitor) toy_save_monitor toy_save_result
          toy_monitors_for_space toy_latest_result toy_notify toy_probe
          initial_scheduler "S1" toy_world in
      is_monitor_running s' "m-pg" = true /\ is_monitor_running s' "m-web" = true
      /\ sched_ok s').
Proof.
  assert (Hok : sched_ok initial_scheduler)
    by (apply sched_okb_sound; vm_compute; reflexivity).
  split; [exact Hok|].
  pose proof (start_all_monitors_in_space_spec (list Monitor) toy_save_monitor toy_save_result
                toy_monitors_for_space toy_latest_result toy_notify toy_probe
                initial_scheduler "S1" toy_world Hok) as H.
  destruct (start_all_monitors_in_space (list Monitor) toy_save_monitor toy_save_result
              toy_monitors_for_space toy_latest_result toy_notify toy_probe
              initial_scheduler "S1" toy_world) as [s' w'].
  destruct H as (Hall & _ & Hk).
  refine (conj (Hall (MDb pg_monitor) _) (conj (Hall (MUrl web_monitor) _) Hk));
    vm_compute; auto.
Defined.

End MonitorScheduler.

(** ** webmonitor/jobs/base_job.py: [BaseJob.run] and [get_status] *)

Module BaseJob.

Record JobState := mkJobState {
  last_run : option Z;
  run_count : Z;
  error_count : Z
}.

(** What [self.execute()] does: return a boolean or raise. *)
Inductive ExecOutcome :=
| Returned (success : bool)
| Raised.

Definition initial_job : JobState := mkJobState None 0 0.

(** [BaseJob.run], for an [execute] with the given outcome.  The log
    calls do not raise; [start_time] and [end_time] are readings of the
    clock before and after [execute]. *)
Definition run (o : ExecOutcome) (st : JobState) : ST (bool * JobState) :=
  start_time <- now ;;
  match o with
  | Returned success =>
      end_time <- now ;;
      let st := mkJobState (Some end_time) (run_count st + 1) (error_count st) in
      if success then ret (success, st)
      else ret (success, mkJobState (last_run st) (run_count st) (error_count st + 1))
  | Raised =>
      ret (false, mkJobState (last_run st) (run_count st) (error_count st + 1))
  end.

(** The scheduler calling [run] once per outcome. *)
Fixpoint run_all (os : list ExecOutcome) (st : JobState) : ST JobState :=
  match os with
  | [] => ret st
  | o :: os' => p <- run o st ;; run_all os' (snd p)
  end.

(** [get_status()['success_rate']], in exact arithmetic. *)
Definition success_rate (st : JobState) : Q :=
  if run_count st >? 0
  then (inject_Z (run_count st - error_count st) / inject_Z (run_count st))%Q
  else 0%Q.

Definition is_returned (o : ExecOutcome) : bool :=
  match o with Returned _ => true | Raised => false end.
Definition is_success (o : ExecOutcome) : bool :=
  match o with Returned true => true | _ => false end.
Definition is_failure (o : ExecOutcome) : bool :=
  match o with Returned false => true | _ => false end.
Definition is_raised (o : ExecOutcome) : bool :=
  match o with Raised => true | _ => false end.

Definition count (f : ExecOutcome -> bool) (os : list ExecOutcome) : Z :=
  Z.of_nat (length (filter f os)).

Lemma run_step (o : ExecOutcome) (st : JobState) (c : Clock) :
  run_count (snd (fst (run o st c))) = run_count st + (if is_returned o then 1 else 0)
  /\ error_count (snd (fst (run o st c)))
     = error_count st + (if is_failure o then 1 else 0) + (if is_raised o then 1 else 0)
  /\ (last_run (snd (fst (run o st c))) = None
      <-> last_run st = None /\ is_returned o = false)
  /\ fst (fst (run o st c)) = is_success o.
Proof.
  unfold run, bind, now, ret.
  destruct c as [t [|d ds]]; destruct o as [[]|]; cbn;
    try (destruct ds; cbn);
    repeat split; try lia; try tauto; try discriminate;
    try (intros [? ?]; discriminate).
Qed.

Lemma run_all_counts (os : list ExecOutcome) (st : JobState) (c : Clock) :
  run_count (fst (run_all os st c)) = run_count st + count is_returned os
  /\ error_count (fst (run_all os st c))
     = error_count st + count is_failure os + count is_raised os
  /\ (last_run (fst (run_all os st c)) = None
      <-> last_run st = None /\ count is_returned os = 0).
Proof.
  revert st c. induction os as [|o os IH]; intros st c.
  - cbn. unfold count. cbn. repeat split; try lia; tauto.
  - cbn [run_all]. unfold bind.
    destruct (run_step o st c) as (S1 & S2 & S3 & _).
    destruct (run o st c) as [[b st'] c'] eqn:E. cbn [fst snd] in S1, S2, S3.
    cbv beta iota. cbn [snd].
    destruct (IH st' c') as (H1 & H2 & H3).
    rewrite H1, H2, H3, S1, S2, S3. unfold count.
    destruct o as [[]|]; cbn [filter is_returned is_failure is_raised length];
      rewrite ?Nat2Z.inj_succ; (split; [lia|split; [lia|]]); split;
      try (intros [[? ?] ?]; split; [assumption|lia]);
      try (intros [? ?]; lia);
      intros [? ?]; repeat split; auto; lia.
Qed.

Lemma count_returned_split (os : list ExecOutcome) :
  count is_returned os = count is_success os + count is_failure os.
Proof.
  unfold count. induction os as [|o os IH]; [reflexivity|].
  destruct o as [[]|]; cbn [filter is_returned is_success is_failure length];
    rewrite ?Nat2Z.inj_succ; lia.
Qed.

(** A job that has run [execute] once per outcome of [os]: [run_count]
    counts the runs where [execute] returned, [error_count] those where
    it returned [False] plus those where it raised, [last_run] is unset
    exactly when [execute] never returned, and [get_status]'s
    [success_rate] is (returned [True] - raised) / returned, or 0 when
    nothing returned; so with more raises than successes it is
    negative. *)
Theorem run_all_status (os : list ExecOutcome) (c : Clock) :
  let st := fst (run_all os initial_job c) in
  run_count st = count is_returned os
  /\ error_count st = count is_failure os + count is_raised os
  /\ (last_run st = None <-> count is_returned os = 0)
  /\ success_rate st
     = if count is_returned os >? 0
       then (inject_Z (count is_success os - count is_raised os)
             / inject_Z (count is_returned os))%Q
       else 0%Q.
Proof.
  cbv zeta. destruct (run_all_counts os initial_job c) as (H1 & H2 & H3).
  cbn [run_count error_count last_run initial_job] in H1, H2, H3.
  rewrite Z.add_0_l in H1, H2. unfold success_rate. rewrite H1, H2.
  refine (conj eq_refl (conj eq_refl (conj _ _))).
  - rewrite H3. tauto.
  - replace (count is_returned os - (count is_failure os + count is_raised os))
      with (count is_success os - count is_raised os)
      by (rewrite (count_returned_split os); lia).
    reflexivity.
Qed.

End BaseJob.

(** ** webmonitor/jobs/health_alert_job.py: [_group_monitors_by_space] *)

Module HealthAlertJob.

Definition msid (m : Monitor) : string := space_id (base_of m).

(** [if sid not in grouped: grouped[sid] = []] then
    [grouped[sid].append(monitor)]: a new key goes last. *)
Fixpoint group_add (sid : string) (m : Monitor) (g : list (string * list Monitor))
  : list (string * list Monitor) :=
  match g with
  | [] => [(sid, [m])]
  | (k, l) :: g' =>
      if String.eqb k sid then (k, (l ++ [m])%list) :: g' else (k, l) :: group_add sid m g'
  end.

Definition _group_monitors_by_space (monitors : list Monitor) : list (string * list Monitor) :=
  fold_left (fun grouped m => group_add (msid m) m grouped) monitors [].

Lemma group_add_keys_in (sid : string) (m : Monitor) (g : list (string * list Monitor)) :
  In sid (map fst g) -> map fst (group_add sid m g) = map fst g.
Proof.
  induction g as [|[k l] g IH]; intro H; [destruct H|].
  cbn in H |- *. destruct (String.eqb k sid) eqn:E; [reflexivity|].
  apply String.eqb_neq in E. destruct H as [H|H]; [congruence|].
  cbn. rewrite IH by exact H. reflexivity.
Qed.

Lemma group_add_keys_new (sid : string) (m : Monitor) (g : list (string * list Monitor)) :
  ~ In sid (map fst g) -> map fst (group_add sid m g) = (map fst g ++ [sid])%list.
Proof.
  induction g as [|[k l] g IH]; intro H; [reflexivity|].
  cbn in H |- *. destruct (String.eqb k sid) eqn:E.
  - apply String.eqb_eq in E. exfalso. apply H. left. exact E.
  - cbn. rewrite IH; [reflexivity|]. intro H'. apply H. right. exact H'.
Qed.

Lemma group_add_entry (sid : string) (m : Monitor) (g : list (string * list Monitor))
    (k : string) (grp : list Monitor) :
  NoDup (map fst g) ->
  In (k, grp) (group_add sid m g) ->
  (k = sid /\ ((~ In sid (map fst g) /\ grp = [m])
               \/ exists l, In (sid, l) g /\ grp = (l ++ [m])%list))
  \/ (k <> sid /\ In (k, grp) g).
Proof.
  induction g as [|[k' l] g IH]; intros Hnd H.
  - destruct H as [H|[]]. injection H as <- <-. left. split; [reflexivity|].
    left. split; [intros []|reflexivity].
  - cbn in Hnd. inversion Hnd as [|x y Hn Hnd' Heq]; subst.
    cbn in H. destruct (String.eqb k' sid) eqn:E.
    + apply String.eqb_eq in E. subst k'. destruct H as [H|H].
      * injection H as <- <-. left. split; [reflexivity|]. right.
        exists l. split; [left; reflexivity|reflexivity].
      * right. split; [|right; exact H].
        intros ->. apply Hn. apply (in_map fst _ (sid, grp)). exact H.
    + apply String.eqb_neq in E. destruct H as [H|H].
      * injection H as <- <-. right. split; [exact E|left; reflexivity].
      * destruct (IH Hnd' H) as [(Hk & [(Hn' & Hg)|(l' & Hl' & Hg)])|(Hne & Hin)].
        -- left. split; [exact Hk|]. left. split; [|exact Hg].
           cbn. intros [H'|H']; [congruence|exact (Hn' H')].
        -- left. split; [exact Hk|]. right. exists l'. split; [right; exact Hl'|exact Hg].
        -- right. split; [exact Hne|right; exact Hin].
Qed.

Lemma filter_none {A : Type} (f : A -> bool) (l : list A) :
  (forall x, In x l -> f x = false) -> filter f l = [].
Proof.
  induction l as [|x l IH]; intro H; [reflexivity|].
  cbn. rewrite (H x (or_introl eq_refl)). apply IH. intros y Hy. apply H. right. exact Hy.
Qed.

Lemma group_fold (P L : list Monitor) (g : list (string * list Monitor)) :
  NoDup (map fst g) ->
  (forall k, In k (map fst g) <-> In k (map msid P)) ->
  (forall k grp, In (k, grp) g -> grp = filter (fun m => String.eqb (msid m) k) P) ->
  let g' := fold_left (fun grouped m => group_add (msid m) m grouped) L g in
  NoDup (map fst g')
  /\ (forall k, In k (map fst g') <-> In k (map msid (P ++ L)))
  /\ (forall k grp, In (k, grp) g' -> grp = filter (fun m => String.eqb (msid m) k) (P ++ L)).
Proof.
  revert P g. induction L as [|m L IH]; intros P g Hnd Hk Hg.
  - cbn. rewrite app_nil_r. exact (conj Hnd (conj Hk Hg)).
  - cbn [fold_left].
    replace (P ++ m :: L)%list with ((P ++ [m]) ++ L)%list
      by (rewrite <- app_assoc; reflexivity).
    apply IH.
    + destruct (in_dec string_dec (msid m) (map fst g)) as [Hin|Hnin].
      * rewrite group_add_keys_in by exact Hin. exact Hnd.
      * rewrite group_add_keys_new by exact Hnin.
        apply (proj2 (NoDup_Add (Add_app (msid m) (map fst g) []))).
        rewrite app_nil_r. split; assumption.
    + intro k. rewrite map_app, in_app_iff, <- Hk. cbn.
      destruct (in_dec string_dec (msid m) (map fst g)) as [Hin|Hnin].
      * rewrite group_add_keys_in by exact Hin.
        split; [tauto|]. intros [H|[H|[]]]; [exact H|subst; exact Hin].
      * rewrite group_add_keys_new by exact Hnin. rewrite in_app_iff. cbn.
        split; intros [H|[H|H]]; tauto.
    + intros k grp H. rewrite filter_app. cbn [filter].
      destruct (group_add_entry _ _ _ _ _ Hnd H)
        as [(-> & [(Hn & ->)|(l & Hl & ->)])|(Hne & Hin)].
      * rewrite String.eqb_refl.
        replace (filter (fun m0 => String.eqb (msid m0) (msid m)) P) with (@nil Monitor);
          [reflexivity|].
        symmetry. apply filter_none. intros x Hx. apply String.eqb_neq. intro He.
        apply Hn. apply Hk. rewrite <- He. apply in_map. exact Hx.
      * rewrite String.eqb_refl. rewrite (Hg _ _ Hl). reflexivity.
      * rewrite (Hg _ _ Hin). destruct (String.eqb (msid m) k) eqn:E.
        -- apply String.eqb_eq in E. congruence.
        -- rewrite app_nil_r. reflexivity.
Qed.

(** [_group_monitors_by_space] has one entry per space id that occurs
    among the monitors, no space twice, and each space's list is the
    monitors of that space in their original order. *)
Theorem group_monitors_by_space_spec (monitors : list Monitor) :
  let grouped := _group_monitors_by_space monitors in
  NoDup (map fst grouped)
  /\ (forall sid, In sid (map fst grouped) <-> In sid (map msid monitors))
  /\ (forall sid grp, In (sid, grp) grouped ->
        grp = filter (fun m => String.eqb (msid m) sid) monitors).
Proof.
  exact (group_fold [] monitors [] (NoDup_nil _) (fun k => iff_refl _)
           (fun k grp H => match H with end)).
Qed.

End HealthAlertJob.
